(** * Variable descriptors, process templates, execution order and the
    zarr output store of the simulation framework

  A shallow embedding of

  - [fastscape/models/variable.py]: the descriptor classes [Variable],
    [ForeignVariable], [DiagnosticVariable] and [UndefinedVariable];
  - [xsimlab/stores.py]: the [ZarrOutputStore];
  - the process template / instance mechanism exercised by
    [xsimlab/tests/test_process.py];
  - the execution order resolver described by the specification.

  Python objects live in a heap indexed by locations, so that aliasing
  between descriptors is visible.  Exceptions are values of [exn]; a
  computation that raises keeps the mutations it made before raising. *)

From Stdlib Require Import ZArith Lia Relations.
From stdpp Require Import gmap strings list fin_maps.

(** ** Python values and exceptions *)

Module Py.

(** Dictionary keys that occur in a [KeyError]. *)
Inductive pykey :=
| KeyStr (s : string)
| KeyPair (a b : string)
| KeyNone.

Inductive exn :=
| AttributeError (attr : string)
| KeyError (key : pykey)
| IndexError
| ValueError (msg : string)
| TypeError (msg : string)
| RecursionError
| SystemError
| ValidationError (msg : string)
| ContainsArrayError (path : string)
| CycleDetected (components : list string)
| UserError (msg : string).

Inductive result (A : Type) :=
| Ok (a : A)
| Raise (e : exn).
Arguments Ok {A} a.
Arguments Raise {A} e.

Definition is_ok {A} (r : result A) : bool :=
  match r with Ok _ => true | Raise _ => false end.

(** numpy dtypes, identified by their [kind] character and item size *)
Inductive dtype :=
| DBool
| DInt (bits : nat)
| DUInt (bits : nat)
| DFloat (bits : nat)
| DComplex (bits : nat)
| DStr.

(** An n-dimensional array: element type, shape, and the elements in
    row-major order.  Elements are kept as opaque payloads. *)
Record ndarray := mk_ndarray {
  nd_dtype : dtype;
  nd_shape : list nat;
  nd_data : list Z
}.

Definition ndim (a : ndarray) : nat := length (nd_shape a).

Inductive pyvalue :=
| PyNone
| PyScalar (dt : dtype) (x : Z)
| PyArray (a : ndarray).

(** number of dimensions of a value, when it has a shape *)
Definition value_ndim (v : pyvalue) : option nat :=
  match v with
  | PyNone => None
  | PyScalar _ _ => Some 0
  | PyArray a => Some (ndim a)
  end.

End Py.

Import Py.

(** ** fastscape/models/variable.py *)

Module Variables.

(** Object identities. *)
Abbreviation loc := positive.

(** Python function objects are referred to by name; what they compute
    is given by an environment (see [Section Semantics]). *)
Abbreviation func_id := string.

(** A validator is a callable taking the value; it returns or raises. *)
Definition validator := pyvalue → result unit.

(** [dims : str or tuple or list]: a label, a tuple of labels, or a list
    of such items. *)
Inductive dims_item :=
| DimStr (label : string)
| DimTuple (labels : list string).

Inductive dims_decl :=
| DimsItem (d : dims_item)
| DimsList (ds : list dims_item).

Definition item_ndim (d : dims_item) : nat :=
  match d with
  | DimStr _ => 1
  | DimTuple labels => length labels
  end.

(** The numbers of dimensions a declaration accepts (docstring of
    [Variable.__init__]). *)
Definition accepted_ndims (d : dims_decl) : list nat :=
  match d with
  | DimsItem i => [item_ndim i]
  | DimsList ds => item_ndim <$> ds
  end.

(** [class Variable(AbstractVariable)] *)
Record Variable_ := mk_Variable {
  provided : bool;
  description : string;
  attrs : option (gmap string string);
  dims : dims_decl;
  optional : bool;
  kind : string;
  default_value : pyvalue;
  _validators : list validator;
  _state : pyvalue
}.

(** [Variable.__init__]; the defaults of the keyword arguments are
    [kind='state_only'], [provided=False], [optional=False],
    [default_value=None], [validators=()], [description=''],
    [attrs=None]. *)
Definition Variable_init (dims : dims_decl) (kind : string)
    (provided optional : bool) (default_value : pyvalue)
    (validators : list validator) (description : string)
    (attrs : option (gmap string string)) : Variable_ :=
  {| provided := provided; description := description; attrs := attrs;
     dims := dims; optional := optional; kind := kind;
     default_value := default_value; _validators := validators;
     _state := PyNone |}.

Definition set__state (v : Variable_) (value : pyvalue) : Variable_ :=
  {| provided := provided v; description := description v;
     attrs := attrs v; dims := dims v; optional := optional v;
     kind := kind v; default_value := default_value v;
     _validators := _validators v; _state := value |}.

(** class attribute [default_validators = []] *)
Definition default_validators : list validator := [].

(** property [validators] *)
Definition validators (v : Variable_) : list validator :=
  default_validators ++ _validators v.

(** [other_process : str or class] *)
Inductive process_ref :=
| ProcessName (name : string)
| ProcessObj (p : loc).

(** [class ForeignVariable(AbstractVariable)] *)
Record ForeignVariable := mk_ForeignVariable {
  f_provided : bool;
  f_description : string;
  f_attrs : option (gmap string string);
  other_process : process_ref;
  _other_process_obj : option loc;
  var_name : string
}.

Definition ForeignVariable_init (other_process : process_ref)
    (var_name : string) (provided : bool) : ForeignVariable :=
  {| f_provided := provided; f_description := ""; f_attrs := None;
     other_process := other_process; _other_process_obj := None;
     var_name := var_name |}.

Definition assign_other_process_obj (f : ForeignVariable) (p : loc)
    : ForeignVariable :=
  {| f_provided := f_provided f; f_description := f_description f;
     f_attrs := f_attrs f; other_process := other_process f;
     _other_process_obj := Some p; var_name := var_name f |}.

(** [class DiagnosticVariable(AbstractVariable)] *)
Record DiagnosticVariable := mk_DiagnosticVariable {
  d_provided : bool;
  d_description : string;
  d_attrs : option (gmap string string);
  _func : func_id;
  _process_obj : option loc
}.

Definition DiagnosticVariable_init (func : func_id) (description : string)
    (attrs : option (gmap string string)) : DiagnosticVariable :=
  {| d_provided := true; d_description := description; d_attrs := attrs;
     _func := func; _process_obj := None |}.

Definition assign_process_obj (d : DiagnosticVariable) (p : loc)
    : DiagnosticVariable :=
  {| d_provided := d_provided d; d_description := d_description d;
     d_attrs := d_attrs d; _func := _func d; _process_obj := Some p |}.

(** [class UndefinedVariable(AbstractVariable)]: it defines no [state]
    property, so an assignment to [state] lands in the instance
    dictionary, kept here as [u_dict]. *)
Record UndefinedVariable := mk_UndefinedVariable {
  u_provided : bool;
  u_description : string;
  u_attrs : option (gmap string string);
  u_dict : gmap string pyvalue
}.

Definition UndefinedVariable_init : UndefinedVariable :=
  {| u_provided := false; u_description := ""; u_attrs := None;
     u_dict := ∅ |}.

Inductive var_obj :=
| OVariable (v : Variable_)
| OForeign (f : ForeignVariable)
| ODiagnostic (d : DiagnosticVariable)
| OUndefined (u : UndefinedVariable).

(** A process class or a process instance: both carry [_variables], the
    mapping from attribute names to descriptor objects.  [p_class] is
    [None] for a class and the class for an instance. *)
Record process_obj := mk_process_obj {
  _variables : gmap string loc;
  p_class : option loc;
  _name : option string
}.

Record store := mk_store {
  vars : gmap loc var_obj;
  procs : gmap loc process_obj
}.

(** The store together with the log of the calls made to diagnostic
    functions, most recent last. *)
Record world := mk_world {
  w_store : store;
  w_calls : list (func_id * option loc)
}.

Definition set_var (l : loc) (o : var_obj) (s : store) : store :=
  {| vars := <[l := o]> (vars s); procs := procs s |}.

Definition with_store (s : store) (w : world) : world :=
  {| w_store := s; w_calls := w_calls w |}.

(** Depth of nested calls after which Python raises [RecursionError]. *)
Definition recursion_limit : nat := 1000.

(** property [ForeignVariable.ref_var] *)
Definition ref_var (f : ForeignVariable) (s : store) : result loc :=
  let cls_or_obj :=
    match _other_process_obj f with
    | None => other_process f
    | Some p => ProcessObj p
    end in
  match cls_or_obj with
  | ProcessName _ => Raise (AttributeError "_variables")
  | ProcessObj p =>
      match procs s !! p with
      | None => Raise SystemError
      | Some po =>
          match _variables po !! var_name f with
          | None => Raise (KeyError (KeyStr (var_name f)))
          | Some l => Ok l
          end
      end
  end.

(** Reading the attribute [_state] of the object at [l]. *)
Definition getattr__state (l : loc) (s : store) : result pyvalue :=
  match vars s !! l with
  | None => Raise SystemError
  | Some (OVariable v) => Ok (_state v)
  | Some (OUndefined u) =>
      match u_dict u !! "_state" with
      | Some x => Ok x
      | None => Raise (AttributeError "_state")
      end
  | Some _ => Raise (AttributeError "_state")
  end.

(** [Variable.run_validators] *)
Fixpoint run_validator_list (vs : list validator) (variable : pyvalue)
    : result unit :=
  match vs with
  | [] => Ok tt
  | vfunc :: rest =>
      match vfunc variable with
      | Ok _ => run_validator_list rest variable
      | Raise e => Raise e
      end
  end.

Definition run_validators (l : loc) (variable : pyvalue) (w : world)
    : result unit * world :=
  match vars (w_store w) !! l with
  | Some (OVariable v) => (run_validator_list (validators v) variable, w)
  | Some _ => (Raise (AttributeError "run_validators"), w)
  | None => (Raise SystemError, w)
  end.

(** [Variable.validate]: the body is [pass]. *)
Definition validate (l : loc) (xr_variable : pyvalue) (w : world)
    : result unit * world :=
  match vars (w_store w) !! l with
  | Some (OVariable v) => (Ok tt, w)
  | Some _ => (Raise (AttributeError "validate"), w)
  | None => (Raise SystemError, w)
  end.

Section Semantics.

(** What a Python function does when called with the process object:
    it returns or raises, and may change the store. *)
Variable funcs : func_id → option loc → store → result pyvalue * store.

Definition call (f : func_id) (arg : option loc) (w : world)
    : result pyvalue * world :=
  let '(r, s') := funcs f arg (w_store w) in
  (r, {| w_store := s'; w_calls := w_calls w ++ [(f, arg)] |}).

(** Reading [obj.state] for the object at [l]. *)
Definition get_state (l : loc) (w : world) : result pyvalue * world :=
  match vars (w_store w) !! l with
  | None => (Raise SystemError, w)
  | Some (OVariable v) => (Ok (_state v), w)
  | Some (OForeign f) =>
      match ref_var f (w_store w) with
      | Raise e => (Raise e, w)
      | Ok t => (getattr__state t (w_store w), w)
      end
  | Some (ODiagnostic d) => call (_func d) (_process_obj d) w
  | Some (OUndefined u) =>
      match u_dict u !! "state" with
      | Some x => (Ok x, w)
      | None => (Raise (AttributeError "state"), w)
      end
  end.

(** [DiagnosticVariable.__call__] *)
Definition diagnostic_call (d : DiagnosticVariable) (w : world)
    : result pyvalue * world :=
  call (_func d) (_process_obj d) w.

(** The assignment [obj.state = value] for the object at [l];
    [depth] bounds the nesting of property setters. *)
Fixpoint set_state_depth (depth : nat) (l : loc) (value : pyvalue)
    (w : world) : result unit * world :=
  match depth with
  | 0 => (Raise RecursionError, w)
  | S depth' =>
      match vars (w_store w) !! l with
      | None => (Raise SystemError, w)
      | Some (OVariable v) =>
          (Ok tt,
           with_store (set_var l (OVariable (set__state v value))
                               (w_store w)) w)
      | Some (OForeign f) =>
          match ref_var f (w_store w) with
          | Raise e => (Raise e, w)
          | Ok t => set_state_depth depth' t value w
          end
      | Some (ODiagnostic d) => (Raise (AttributeError "state"), w)
      | Some (OUndefined u) =>
          (Ok tt,
           with_store
             (set_var l
                (OUndefined
                   {| u_provided := u_provided u;
                      u_description := u_description u;
                      u_attrs := u_attrs u;
                      u_dict := <["state" := value]> (u_dict u) |})
                (w_store w)) w)
      end
  end.

Definition set_state : loc → pyvalue → world → result unit * world :=
  set_state_depth recursion_limit.

End Semantics.

End Variables.

(** ** Process templates and instances (xsimlab/process.py) *)

Module Processes.

Import Variables.

(** Modelled from the spec: the copy of one descriptor made when a
    process is instantiated.  [xsimlab/process.py] is not part of the
    sources; [test_constructor] states that the diagnostics of an
    instance are assigned the instance ("test assign process to
    diagnostics"), all other descriptors are copied field by field. *)
Definition bind_diagnostic (p : loc) (o : var_obj) : var_obj :=
  match o with
  | ODiagnostic d => ODiagnostic (assign_process_obj d p)
  | _ => o
  end.

(** Modelled from the spec: the deep copy of the descriptors of a
    template ("deep-copies state containers so instances don't share
    mutable state"): every descriptor listed in [items] is copied to a
    location that is not in use. *)
Fixpoint deepcopy_variables (p : loc) (items : list (string * loc))
    (s : store) : result (gmap string loc) * store :=
  match items with
  | [] => (Ok ∅, s)
  | (k, l) :: rest =>
      match vars s !! l with
      | None => (Raise SystemError, s)
      | Some o =>
          let l' := fresh (dom (vars s)) in
          match deepcopy_variables p rest
                  (set_var l' (bind_diagnostic p o) s) with
          | (Ok m, s') => (Ok (<[k := l']> m), s')
          | (Raise e, s') => (Raise e, s')
          end
      end
  end.

(** Modelled from the spec: building a process object from the
    descriptors of [src], a class or an instance; the constructor and
    [clone] of [xsimlab/process.py], which is not part of the sources,
    are the two uses below. *)
Definition new_process (src : loc) (cls : option loc) (name : option string)
    (s : store) : result loc * store :=
  match procs s !! src with
  | None => (Raise SystemError, s)
  | Some po =>
      let p := fresh (dom (procs s)) in
      match deepcopy_variables p (map_to_list (_variables po)) s with
      | (Ok m, s') =>
          (Ok p,
           {| vars := vars s';
              procs := <[p := {| _variables := m; p_class := cls;
                                 _name := name |}]> (procs s') |})
      | (Raise e, s') => (Raise e, s')
      end
  end.

(** Modelled from the spec: [Process.__init__], instantiating the class
    [cls] ("instantiated per Model (deep-copies state containers so
    instances don't share mutable state)"). *)
Definition Process_init (cls : loc) (s : store) : result loc * store :=
  new_process cls (Some cls) None s.

(** Modelled from the spec: [Process.clone] ("fresh, independent
    component state (deep-copied slots)"). *)
Definition clone (inst : loc) (s : store) : result loc * store :=
  match procs s !! inst with
  | None => (Raise SystemError, s)
  | Some po => new_process inst (p_class po) (_name po) s
  end.

(** Every descriptor a process lists is an object of the store. *)
Definition process_closed (s : store) (p : loc) : Prop :=
  match procs s !! p with
  | Some po => map_Forall (λ _ l, is_Some (vars s !! l)) (_variables po)
  | None => False
  end.

#[global] Instance process_closed_dec s p : Decision (process_closed s p).
Proof. unfold process_closed. destruct (procs s !! p); apply _. Defined.

(** [p] is a process of [s'] that did not exist in [s], built from the
    process [src], and the two share no state: each descriptor of [src]
    has a counterpart of the same name in [p] at another location, one
    that was not in use in [s]; when the descriptor of [src] is an owned
    variable, the counterpart starts with the same state, and assigning
    the state of either leaves the state of the other as it was. *)
Definition independent_copy
    (funcs : func_id → option loc → store → result pyvalue * store)
    (s s' : store) (src p : loc) : Prop :=
  ∃ po pp,
    procs s !! src = Some po ∧ procs s' !! src = Some po ∧
    procs s !! p = None ∧ procs s' !! p = Some pp ∧
    ∀ k l, _variables po !! k = Some l →
      ∃ l', _variables pp !! k = Some l' ∧ l' ≠ l ∧ vars s !! l' = None ∧
        ∀ v value calls,
          vars s !! l = Some (OVariable v) →
          let w' := {| w_store := s'; w_calls := calls |} in
          get_state funcs l' w' = (Ok (_state v), w') ∧
          (∃ w'', set_state l value w' = (Ok tt, w'') ∧
                  get_state funcs l w'' = (Ok value, w'') ∧
                  get_state funcs l' w'' = (Ok (_state v), w'')) ∧
          (∃ w'', set_state l' value w' = (Ok tt, w'') ∧
                  get_state funcs l' w'' = (Ok value, w'') ∧
                  get_state funcs l w'' = (Ok (_state v), w'')).

End Processes.

(** ** Execution order resolver (specification, section 4.3) *)

Module Resolver.

(** A dependency graph: the components in declaration order and the
    producer-to-consumer edges. *)
Record graph := mk_graph {
  nodes : list string;
  edges : list (string * string)
}.

(** Modelled from the spec: a node has "unresolved predecessors" when
    some edge leads to it from a component that is not placed yet. *)
Definition has_unresolved_pred (es : list (string * string))
    (remaining : list string) (n : string) : bool :=
  existsb (λ e, bool_decide (e.2 = n) && bool_decide (e.1 ∈ remaining)) es.

Definition ready (es : list (string * string)) (remaining : list string)
    (n : string) : bool :=
  negb (has_unresolved_pred es remaining n).

(** Modelled from the spec: "repeated selection of zero-in-degree nodes"
    with the tie-break "order them by their original declaration order":
    [remaining] stays in declaration order and the first ready node is
    taken.  When no node is ready the graph has a cycle: "fail with a
    Cycle-Detected signal naming the participating components (no partial
    order is returned)". *)
Fixpoint resolve_loop (fuel : nat) (es : list (string * string))
    (remaining placed : list string) : result (list string) :=
  match remaining with
  | [] => Ok (rev placed)
  | _ :: _ =>
      match fuel with
      | 0 => Raise SystemError
      | S fuel' =>
          match find (ready es remaining) remaining with
          | None => Raise (CycleDetected remaining)
          | Some n =>
              resolve_loop fuel' es (filter (λ m, m ≠ n) remaining)
                           (n :: placed)
          end
      end
  end.

(** Modelled from the spec: the Execution Order Resolver of section 4.3,
    whose code is not part of the sources. *)
Definition execution_order (g : graph) : result (list string) :=
  resolve_loop (length (nodes g)) (edges g) (nodes g) [].

(** Position of a component in an order. *)
Fixpoint position (x : string) (l : list string) : option nat :=
  match l with
  | [] => None
  | y :: l' => if decide (x = y) then Some 0 else S <$> position x l'
  end.

Definition edge_rel (es : list (string * string)) : relation string :=
  λ u v, (u, v) ∈ es.

(** No component reaches itself along one or more edges. *)
Definition acyclic (g : graph) : Prop :=
  ∀ u, ¬ tc (edge_rel (edges g)) u u.

(** The graph is over the components of the model. *)
Definition well_formed (g : graph) : Prop :=
  NoDup (nodes g) ∧
  Forall (λ e, e.1 ∈ nodes g ∧ e.2 ∈ nodes g) (edges g).

(** [u] occurs before [v] in [l]. *)
Definition before (u v : string) (l : list string) : Prop :=
  ∃ l1 l2 l3, l = l1 ++ u :: l2 ++ v :: l3.

End Resolver.

(** ** xsimlab/stores.py *)

Module Stores.

(** Keys [(process name, variable name)] and clocks ([None] for
    variables that are not sampled along a clock). *)
Abbreviation var_key := (string * string)%type.
Abbreviation clock := (option string).

Definition _DIMENSION_KEY : string := "_ARRAY_DIMENSIONS".

(** *** numpy *)

(** The values of output variables: numpy scalars and arrays. *)
Inductive npvalue :=
| NpScalar (dt : dtype) (x : Z)
| NpArray (a : ndarray).


(** [np.asarray]: a scalar becomes a 0-d array, an array is returned
    as it is. *)
Definition np_asarray (v : npvalue) : ndarray :=
  match v with
  | NpScalar dt x => {| nd_dtype := dt; nd_shape := []; nd_data := [x] |}
  | NpArray a => a
  end.

Inductive fill_value :=
| FillNaN
| FillZero
| FillPair (re im : fill_value).

Definition dtype_kind (dt : dtype) : string :=
  match dt with
  | DBool => "b"
  | DInt _ => "i"
  | DUInt _ => "u"
  | DFloat _ => "f"
  | DComplex _ => "c"
  | DStr => "U"
  end.

(** [dtype.type().real.dtype] and [dtype.type().imag.dtype]: the parts
    of a complex number are floats of half its size. *)
Definition part_dtype (dt : dtype) : dtype :=
  match dt with
  | DComplex bits => DFloat (bits `div` 2)
  | _ => dt
  end.

Fixpoint default_fill_value_depth (depth : nat) (dt : dtype) : fill_value :=
  match depth with
  | 0 => FillZero
  | S depth' =>
      if decide (dtype_kind dt = "f") then FillNaN
      else if decide (dtype_kind dt = "c") then
        FillPair (default_fill_value_depth depth' (part_dtype dt))
                 (default_fill_value_depth depth' (part_dtype dt))
      else FillZero
  end.

(** [default_fill_value_from_dtype]; the recursion on the parts of a
    complex dtype ends after one step. *)
Definition default_fill_value_from_dtype : dtype → fill_value :=
  default_fill_value_depth 2.

(** *** zarr *)

(** The part of a zarr group the store relies on: named arrays with a
    shape, an element type, a fill value, attributes and the stored
    elements in row-major order. *)
Inductive cell :=
| CFill
| CVal (x : Z).

Inductive attr_value :=
| AttrStr (s : string)
| AttrTuple (labels : list string)
| AttrNum (z : Z).

Record zarray := mk_zarray {
  z_shape : list nat;
  z_dtype : dtype;
  z_fill : fill_value;
  z_attrs : gmap string attr_value;
  z_data : list cell
}.

Definition size_of (shape : list nat) : nat := foldr Nat.mul 1 shape.

(** The fill values zarr can store in the metadata of an array: a
    number, not a tuple. *)
Definition valid_fill (fill : fill_value) : bool :=
  match fill with
  | FillPair _ _ => false
  | FillNaN | FillZero => true
  end.

(** [Group.create_dataset(name, shape=..., dtype=..., fill_value=...)]:
    a new array holding the fill value.  An array of that name must not
    exist yet, which zarr checks first; it then raises a [ValueError] for
    a fill value it cannot store, before the array exists. *)
Definition create_dataset (name : string) (shape : list nat) (dt : dtype)
    (fill : fill_value) (g : gmap string zarray)
    : result (gmap string zarray) :=
  match g !! name with
  | Some _ => Raise (ContainsArrayError name)
  | None =>
      if valid_fill fill then
        Ok (<[name := {| z_shape := shape; z_dtype := dt; z_fill := fill;
                         z_attrs := ∅;
                         z_data := replicate (size_of shape) CFill |}]> g)
      else Raise (ValueError "fill_value is not valid for dtype")
  end.

(** The elements a value contributes to a selection of shape
    [sel_shape]: a scalar is broadcast, an array must have exactly that
    shape. *)
Definition cells_for (sel_shape : list nat) (v : npvalue)
    : result (list cell) :=
  match v with
  | NpScalar _ x => Ok (replicate (size_of sel_shape) (CVal x))
  | NpArray a =>
      if decide (nd_shape a = sel_shape) then Ok (CVal <$> nd_data a)
      else Raise (ValueError "parameter 'value': expected array with shape")
  end.

Definition with_data (za : zarray) (d : list cell) : zarray :=
  {| z_shape := z_shape za; z_dtype := z_dtype za; z_fill := z_fill za;
     z_attrs := z_attrs za; z_data := d |}.

Definition with_attrs (za : zarray) (a : gmap string attr_value) : zarray :=
  {| z_shape := z_shape za; z_dtype := z_dtype za; z_fill := z_fill za;
     z_attrs := a; z_data := z_data za |}.

(** The elements of index [i] along the first axis, [sz] elements each. *)
Definition write_index (d : list cell) (sz i : nat) (new : list cell)
    : list cell :=
  take (i * sz) d ++ new ++ drop (i * sz + sz) d.


(** [group[zkey][i] = value] *)
Definition setitem_index (zkey : string) (i : nat) (v : npvalue)
    (g : gmap string zarray) : result (gmap string zarray) :=
  match g !! zkey with
  | None => Raise (KeyError (KeyStr zkey))
  | Some za =>
      match z_shape za with
      | [] => Raise IndexError
      | n :: sel_shape =>
          if decide (i < n) then
            match cells_for sel_shape v with
            | Raise e => Raise e
            | Ok new =>
                Ok (<[zkey := with_data za
                        (write_index (z_data za) (size_of sel_shape) i new)]>
                      g)
            end
          else Raise IndexError
      end
  end.

(** [group[zkey][:] = value]: the slice selects along the first axis,
    and an array without axes has too many indices for it. *)
Definition setitem_all (zkey : string) (v : npvalue)
    (g : gmap string zarray) : result (gmap string zarray) :=
  match g !! zkey with
  | None => Raise (KeyError (KeyStr zkey))
  | Some za =>
      match z_shape za with
      | [] => Raise IndexError
      | _ :: _ =>
          match cells_for (z_shape za) v with
          | Raise e => Raise e
          | Ok new => Ok (<[zkey := with_data za new]> g)
          end
      end
  end.

(** *** xarray: the dataset of save steps *)

(** [dataset.xsimlab.get_output_save_steps()]: for every clock, one
    boolean per step of the master clock. *)
Record save_steps := mk_save_steps {
  ss_nsteps : nat;
  ss_vars : gmap string (list bool)
}.

(** [output_save_steps.isel(mclock=istep)], with Python's negative
    indices. *)
Definition isel (ss : save_steps) (istep : Z) : result (gmap string bool) :=
  let n := Z.of_nat (ss_nsteps ss) in
  if decide (- n ≤ istep < n)%Z then
    Ok ((λ col : list bool,
           default false (col !! Z.to_nat (istep `mod` n))) <$> ss_vars ss)
  else Raise IndexError.

(** [save_istep.data_vars.get(clock, True)]: the data variables are
    named after clocks, so [None] is never among them. *)
Definition data_vars_get (save_istep : gmap string bool) (c : clock) : bool :=
  match c with
  | None => true
  | Some name => default true (save_istep !! name)
  end.

(** *** The store *)

(** [var.metadata] *)
Record var_metadata := mk_var_metadata {
  md_dims : list (list string);
  md_description : string;
  md_attrs : gmap string attr_value
}.

(** An entry of [var_info]; the value getter is the closure of
    [_variable_value_getter] over the process and the variable name. *)
Record var_info_entry := mk_var_info_entry {
  vi_clock : clock;
  vi_name : string;
  vi_obj : var_metadata;
  vi_value_getter : var_key
}.

(** [class ZarrOutputStore]; [model] holds the current attribute values
    of the process objects of the model. *)
Record ZarrOutputStore := mk_ZarrOutputStore {
  model : gmap var_key npvalue;
  zgroup : gmap string zarray;
  in_memory : bool;
  consolidated : bool;
  output_vars : list (clock * list var_key);
  output_save_steps : save_steps;
  var_info : gmap var_key var_info_entry;
  clock_sizes : gmap string nat;
  clock_incs : gmap clock nat
}.

Definition set_zgroup (g : gmap string zarray) (st : ZarrOutputStore)
    : ZarrOutputStore :=
  {| model := model st; zgroup := g; in_memory := in_memory st;
     consolidated := consolidated st; output_vars := output_vars st;
     output_save_steps := output_save_steps st; var_info := var_info st;
     clock_sizes := clock_sizes st; clock_incs := clock_incs st |}.

Definition set_consolidated (b : bool) (st : ZarrOutputStore)
    : ZarrOutputStore :=
  {| model := model st; zgroup := zgroup st; in_memory := in_memory st;
     consolidated := b; output_vars := output_vars st;
     output_save_steps := output_save_steps st; var_info := var_info st;
     clock_sizes := clock_sizes st; clock_incs := clock_incs st |}.

Definition set_clock_incs (m : gmap clock nat) (st : ZarrOutputStore)
    : ZarrOutputStore :=
  {| model := model st; zgroup := zgroup st; in_memory := in_memory st;
     consolidated := consolidated st; output_vars := output_vars st;
     output_save_steps := output_save_steps st; var_info := var_info st;
     clock_sizes := clock_sizes st; clock_incs := m |}.

(** [_get_var_info]: the entries of [var_info] for the output variables
    of the dataset and the index variables of the model, the latter
    without clock.  [declared] gives, for the processes of the model, the
    variables their classes declare ([variables_dict]). *)
Fixpoint update_clock (vk : var_key) (c : clock)
    (var_clocks : list (var_key * clock)) : list (var_key * clock) :=
  match var_clocks with
  | [] => [(vk, c)]
  | (vk', c') :: rest =>
      if decide (vk' = vk) then (vk, c) :: rest
      else (vk', c') :: update_clock vk c rest
  end.

Definition var_clocks_of (output_vars : list (var_key * clock))
    (index_vars : list var_key) : list (var_key * clock) :=
  foldl (λ acc vk, update_clock vk None acc)
        (foldl (λ acc kv, update_clock kv.1 kv.2 acc) [] output_vars)
        index_vars.

Fixpoint var_info_of (declared : gmap string (gmap string var_metadata))
    (var_clocks : list (var_key * clock))
    (var_info : gmap var_key var_info_entry)
    : result (gmap var_key var_info_entry) :=
  match var_clocks with
  | [] => Ok var_info
  | ((p_name, v_name), c) :: rest =>
      match declared !! p_name with
      | None => Raise (KeyError (KeyStr p_name))
      | Some vars =>
          match vars !! v_name with
          | None => Raise (KeyError (KeyStr v_name))
          | Some v_obj =>
              var_info_of declared rest
                (<[(p_name, v_name) :=
                     {| vi_clock := c;
                        vi_name := p_name +:+ "__" +:+ v_name;
                        vi_obj := v_obj;
                        vi_value_getter := (p_name, v_name) |}]> var_info)
          end
      end
  end.

Definition _get_var_info (output_vars : list (var_key * clock))
    (index_vars : list var_key)
    (declared : gmap string (gmap string var_metadata))
    : result (gmap var_key var_info_entry) :=
  var_info_of declared (var_clocks_of output_vars index_vars) ∅.

(** [clock_incs] as set up by [__init__] *)
Definition init_clock_incs (clock_coords : list string) : gmap clock nat :=
  <[None := 0]> (list_to_map ((λ c, (Some c, 0)) <$> clock_coords)).

(** Methods run in a state monad over the store; an exception leaves
    the store as it was when raised. *)
Definition M (A : Type) : Type :=
  ZarrOutputStore → result A * ZarrOutputStore.

Definition ret {A} (a : A) : M A := λ st, (Ok a, st).

Definition raise {A} (e : exn) : M A := λ st, (Raise e, st).

Definition bind {A B} (c : M A) (k : A → M B) : M B :=
  λ st, match c st with
        | (Ok a, st') => k a st'
        | (Raise e, st') => (Raise e, st')
        end.

Notation "'do' x <- c1 ; c2" := (bind c1 (λ x, c2))
  (at level 10, x name, c1 at level 100, c2 at level 200).
Notation "'run' c1 ; c2" := (bind c1 (λ _, c2))
  (at level 10, c1 at level 100, c2 at level 200).

Definition lift {A} (f : ZarrOutputStore → result A) : M A :=
  λ st, (f st, st).

(** A zarr operation on [self.zgroup] *)
Definition on_zgroup
    (op : gmap string zarray → result (gmap string zarray)) : M unit :=
  λ st, match op (zgroup st) with
        | Ok g => (Ok tt, set_zgroup g st)
        | Raise e => (Raise e, st)
        end.

(** [for x in l: body(x)] *)
Fixpoint for_each {A} (l : list A) (body : A → M unit) : M unit :=
  match l with
  | [] => ret tt
  | x :: rest => run body x; for_each rest body
  end.

Definition key_of_var (vk : var_key) : pykey := KeyPair vk.1 vk.2.

Definition key_of_clock (c : clock) : pykey :=
  match c with Some name => KeyStr name | None => KeyNone end.

(** [self.var_info[var_key]] *)
Definition get_var_info (vk : var_key) : M var_info_entry :=
  lift (λ st, match var_info st !! vk with
              | Some vi => Ok vi
              | None => Raise (KeyError (key_of_var vk))
              end).

(** Calling a value getter: [getattr(process_obj, var_name)] *)
Definition value_getter (vi : var_info_entry) : M npvalue :=
  lift (λ st, match model st !! vi_value_getter vi with
              | Some v => Ok v
              | None => Raise (AttributeError (vi_value_getter vi).2)
              end).

(** [self.clock_sizes[clock]] *)
Definition get_clock_size (c : string) : M nat :=
  lift (λ st, match clock_sizes st !! c with
              | Some n => Ok n
              | None => Raise (KeyError (KeyStr c))
              end).

(** [self.clock_incs[clock]] *)
Definition get_clock_inc (c : clock) : M nat :=
  lift (λ st, match clock_incs st !! c with
              | Some n => Ok n
              | None => Raise (KeyError (key_of_clock c))
              end).

(** The loop [for dims in var.metadata["dims"]: if len(dims) ==
    array.ndim: dim_labels = list(dims)], starting from [None]. *)
Definition find_dim_labels (dims : list (list string)) (nd : nat)
    : option (list string) :=
  foldl (λ dim_labels d,
           if decide (length d = nd) then Some d else dim_labels)
        None dims.

(** Python's [repr] of a tuple of labels and of a tuple of such tuples,
    for labels without quotes or escapes. *)
Definition repr_label (s : string) : string := "'" +:+ s +:+ "'".

Fixpoint join (sep : string) (l : list string) : string :=
  match l with
  | [] => ""
  | [x] => x
  | x :: rest => x +:+ sep +:+ join sep rest
  end.

Definition repr_tuple (items : list string) : string :=
  match items with
  | [x] => "(" +:+ x +:+ ",)"
  | _ => "(" +:+ join ", " items +:+ ")"
  end.

Definition repr_dims (dims : list (list string)) : string :=
  repr_tuple ((λ d, repr_tuple (repr_label <$> d)) <$> dims).

Fixpoint digits (fuel n : nat) (acc : string) : string :=
  match fuel with
  | 0 => acc
  | S fuel' =>
      let acc' := String (Ascii.ascii_of_nat (48 + n `mod` 10)) acc in
      if decide (n < 10) then acc' else digits fuel' (n `div` 10) acc'
  end.

Definition repr_nat (n : nat) : string := digits (S n) n "".

Definition dims_error_message (nd : nat) (name : string)
    (dims : list (list string)) : string :=
  "Output array of " +:+ repr_nat nd +:+ " dimension(s) for variable '"
  +:+ name +:+ "' doesn't match any of its accepted dimension(s): "
  +:+ repr_dims dims.

(** The three updates of [zdataset.attrs] *)
Definition dataset_attrs (var : var_metadata) (dim_labels : list string)
    (attrs0 : gmap string attr_value) : gmap string attr_value :=
  let attrs1 := <[_DIMENSION_KEY := AttrTuple dim_labels]> attrs0 in
  let attrs2 :=
    if decide (md_description var = "") then attrs1
    else <["description" := AttrStr (md_description var)]> attrs1 in
  md_attrs var ∪ attrs2.

(** [ZarrOutputStore._create_zarr_dataset] *)
Definition _create_zarr_dataset (vk : var_key) (name : option string)
    : M unit :=
  do vi <- get_var_info vk;
  let var := vi_obj vi in
  let name := default (vi_name vi) name in
  do value <- value_getter vi;
  let array := np_asarray value in
  let clock := vi_clock vi in
  do shape <- match clock with
              | None => ret (nd_shape array)
              | Some c => do n <- get_clock_size c; ret (n :: nd_shape array)
              end;
  run on_zgroup (create_dataset name shape (nd_dtype array)
                   (default_fill_value_from_dtype (nd_dtype array)));
  match find_dim_labels (md_dims var) (ndim array) with
  | None => raise (ValueError (dims_error_message (ndim array) name
                                 (md_dims var)))
  | Some dims =>
      let dim_labels :=
        match clock with Some c => c :: dims | None => dims end in
      run on_zgroup (λ g, Ok (alter (λ za, with_attrs za
                                (dataset_attrs var dim_labels (z_attrs za)))
                              name g));
      λ st, (Ok tt, set_consolidated false st)
  end.

(** The body of the second loop of [write_output_vars] *)
Definition write_var (c : clock) (clock_inc : nat) (vk : var_key) : M unit :=
  do vi <- get_var_info vk;
  let zkey := vi_name vi in
  do array <- value_getter vi;
  match c with
  | None => on_zgroup (setitem_all zkey array)
  | Some _ => on_zgroup (setitem_index zkey clock_inc array)
  end.

(** The body of the loop over [self.output_vars.items()] *)
Definition write_clock_vars (istep : Z) (save_istep : gmap string bool)
    (item : clock * list var_key) : M unit :=
  let '(c, var_keys) := item in
  if bool_decide (c = None) && bool_decide (istep ≠ (-1)%Z) then ret tt
  else if negb (data_vars_get save_istep c) then ret tt
  else
    do clock_inc <- get_clock_inc c;
    run (if decide (clock_inc = 0)
         then for_each var_keys (λ vk, _create_zarr_dataset vk None)
         else ret tt);
    run for_each var_keys (write_var c clock_inc);
    λ st, (Ok tt, set_clock_incs (<[c := clock_inc + 1]> (clock_incs st)) st).

(** [ZarrOutputStore.write_output_vars] *)
Definition write_output_vars (istep : Z) : M unit :=
  do save_istep <- lift (λ st, isel (output_save_steps st) istep);
  do items <- lift (λ st, Ok (output_vars st));
  for_each items (write_clock_vars istep save_istep).

(** [ZarrOutputStore.write_index_vars], for the index variables of the
    model *)
Definition write_index_vars (index_vars : list var_key) : M unit :=
  for_each index_vars (λ vk,
    run _create_zarr_dataset vk (Some vk.2);
    do vi <- get_var_info vk;
    do array <- value_getter vi;
    on_zgroup (setitem_all vk.2 array)).

End Stores.

(** * Properties of the descriptors *)

Module VariablesFacts.

Import Variables.

Lemma recursion_limit_S : recursion_limit = S (S 998).
Proof. reflexivity. Qed.

(** A function that does nothing, for closed examples. *)
Definition no_funcs : func_id → option loc → store → result pyvalue * store :=
  λ _ _ s, (Ok PyNone, s).

(** A function that counts its calls in the variable at location 1. *)
Definition counter_funcs
    : func_id → option loc → store → result pyvalue * store :=
  λ _ _ s,
    match vars s !! 1%positive with
    | Some (OVariable v) =>
        match _state v with
        | PyScalar dt x =>
            (Ok (PyScalar dt (x + 1)),
             set_var 1%positive
               (OVariable (set__state v (PyScalar dt (x + 1)))) s)
        | _ => (Raise (TypeError "unsupported operand"), s)
        end
    | _ => (Raise (AttributeError "count"), s)
    end.

Section Facts.

Variable funcs : func_id → option loc → store → result pyvalue * store.

Lemma set_state_variable (w : world) (l : loc) (v : Variable_)
    (value : pyvalue) (depth : nat) :
  vars (w_store w) !! l = Some (OVariable v) →
  set_state_depth (S depth) l value w =
    (Ok tt,
     with_store (set_var l (OVariable (set__state v value)) (w_store w)) w).
Proof. intros Hl. cbn [set_state_depth]. by rewrite Hl. Qed.

Lemma set_state_foreign (w : world) (l t : loc) (f : ForeignVariable)
    (value : pyvalue) (depth : nat) :
  vars (w_store w) !! l = Some (OForeign f) →
  ref_var f (w_store w) = Ok t →
  set_state_depth (S depth) l value w =
    set_state_depth depth t value w.
Proof. intros Hl Hr. cbn [set_state_depth]. by rewrite Hl, Hr. Qed.

Lemma ref_var_set_var (f : ForeignVariable) (s : store) (l : loc)
    (o : var_obj) :
  ref_var f (set_var l o s) = ref_var f s.
Proof. reflexivity. Qed.

Lemma get_state_foreign (w : world) (l t : loc) (f : ForeignVariable)
    (tv : Variable_) :
  vars (w_store w) !! l = Some (OForeign f) →
  ref_var f (w_store w) = Ok t →
  vars (w_store w) !! t = Some (OVariable tv) →
  get_state funcs l w = (Ok (_state tv), w).
Proof.
  intros Hl Hr Ht. unfold get_state, getattr__state.
  by rewrite Hl, Hr, Ht.
Qed.

Lemma get_state_variable (w : world) (l : loc) (v : Variable_) :
  vars (w_store w) !! l = Some (OVariable v) →
  get_state funcs l w = (Ok (_state v), w).
Proof. intros Hl. unfold get_state. by rewrite Hl. Qed.

Lemma set_state_through_foreign (w : world) (lf lt : loc)
    (f : ForeignVariable) (tv : Variable_) (value : pyvalue) :
  vars (w_store w) !! lf = Some (OForeign f) →
  ref_var f (w_store w) = Ok lt →
  vars (w_store w) !! lt = Some (OVariable tv) →
  set_state lf value w =
    (Ok tt,
     with_store (set_var lt (OVariable (set__state tv value)) (w_store w)) w).
Proof.
  intros Hf Hr Ht. unfold set_state. rewrite recursion_limit_S.
  rewrite (set_state_foreign w lf lt f value _ Hf Hr).
  by apply set_state_variable.
Qed.

(** C1: a foreign descriptor resolved to an owned variable and that
    variable are two accessors of one slot.  Writing [value] through the
    foreign descriptor replaces the state of the target object in the
    store, after which the target reads [value]; writing through the
    target leads to the very same world, in which the foreign descriptor
    reads [value]. *)
Theorem foreign_state_aliasing (w : world) (lf lt : loc)
    (f : ForeignVariable) (tv : Variable_) (value : pyvalue) :
  vars (w_store w) !! lf = Some (OForeign f) →
  ref_var f (w_store w) = Ok lt →
  vars (w_store w) !! lt = Some (OVariable tv) →
  let w' :=
    with_store (set_var lt (OVariable (set__state tv value)) (w_store w)) w in
  set_state lf value w = (Ok tt, w') ∧
  get_state funcs lt w' = (Ok value, w') ∧
  set_state lt value w = (Ok tt, w') ∧
  get_state funcs lf w' = (Ok value, w').
Proof.
  intros Hf Hr Ht w'.
  assert (Hne : lt ≠ lf) by (intros ->; congruence).
  assert (Ht' : vars (w_store w') !! lt = Some (OVariable (set__state tv value))).
  { subst w'. cbn. by rewrite lookup_insert_eq. }
  assert (Hf' : vars (w_store w') !! lf = Some (OForeign f)).
  { subst w'. cbn. by rewrite lookup_insert_ne. }
  split_and!.
  - by apply (set_state_through_foreign w lf lt f tv).
  - by rewrite (get_state_variable w' lt _ Ht').
  - unfold set_state. rewrite recursion_limit_S.
    by apply set_state_variable.
  - by rewrite (get_state_foreign w' lf lt f _ Hf' Hr Ht').
Qed.

(** C3 (as the code has it): [validate] returns normally for every value,
    whatever its shape and whatever the registered validators do, and
    leaves the world as it is.  The registered validators are run by
    [run_validators]: it raises what the first failing validator raises,
    returns normally when none fails, and leaves the world as it is. *)
Theorem validate_is_a_hook (w : world) (l : loc) (v : Variable_)
    (x : pyvalue) :
  vars (w_store w) !! l = Some (OVariable v) →
  validate l x w = (Ok tt, w) ∧
  (∀ i vf e,
     validators v !! i = Some vf → vf x = Raise e →
     (∀ j vg, j < i → validators v !! j = Some vg → vg x = Ok tt) →
     run_validators l x w = (Raise e, w)) ∧
  ((∀ vf, vf ∈ validators v → vf x = Ok tt) →
   run_validators l x w = (Ok tt, w)).
Proof.
  intros Hl. unfold validate, run_validators. rewrite Hl.
  split_and!; [done | |].
  - generalize (validators v). intros vs. induction vs as [|vg vs IH];
      intros i vf e Hi Hvf Hbefore; [done |].
    destruct i as [|i]; simplify_eq/=.
    + by rewrite Hvf.
    + rewrite (Hbefore 0 vg); [| lia | done].
      apply (IH i vf e Hi Hvf).
      intros j vh Hj Hvh. apply (Hbefore (S j) vh); [lia | done].
  - generalize (validators v). intros vs Hall.
    induction vs as [|vg vs IH]; [done |]. cbn.
    rewrite (Hall vg) by set_solver.
    apply IH. intros vf Hvf. apply Hall. set_solver.
Qed.

(** C4 (as the code has it): a foreign descriptor that is not bound to a
    process instance resolves through [other_process].  When that is a
    class name, every state access raises [AttributeError] and changes
    nothing; when it is a class whose [_variables] maps [var_name] to an
    owned variable, reading returns the state of that class-level
    variable and writing replaces it. *)
Theorem unbound_foreign_state (w : world) (lf : loc) (f : ForeignVariable) :
  vars (w_store w) !! lf = Some (OForeign f) →
  _other_process_obj f = None →
  (∀ name value,
     other_process f = ProcessName name →
     get_state funcs lf w = (Raise (AttributeError "_variables"), w) ∧
     set_state lf value w = (Raise (AttributeError "_variables"), w)) ∧
  (∀ c pc lt tv value,
     other_process f = ProcessObj c →
     procs (w_store w) !! c = Some pc →
     _variables pc !! var_name f = Some lt →
     vars (w_store w) !! lt = Some (OVariable tv) →
     get_state funcs lf w = (Ok (_state tv), w) ∧
     set_state lf value w =
       (Ok tt,
        with_store (set_var lt (OVariable (set__state tv value)) (w_store w))
                   w)).
Proof.
  intros Hf Hnone. split.
  - intros name value Hop.
    assert (Hr : ref_var f (w_store w) = Raise (AttributeError "_variables")).
    { unfold ref_var. by rewrite Hnone, Hop. }
    split.
    + unfold get_state. by rewrite Hf, Hr.
    + unfold set_state. rewrite recursion_limit_S. cbn [set_state_depth].
      by rewrite Hf, Hr.
  - intros c pc lt tv value Hop Hc Hv Ht.
    assert (Hr : ref_var f (w_store w) = Ok lt).
    { unfold ref_var. by rewrite Hnone, Hop, Hc, Hv. }
    split.
    + by apply (get_state_foreign w lf lt f tv).
    + by apply (set_state_through_foreign w lf lt f tv).
Qed.

(** C5: every read of the state of a diagnostic descriptor calls the
    bound function on the bound process object: the result of a read is
    what the function returns on the store as it is at that read, and
    the call is appended to the log of calls.  So two consecutive reads
    of a descriptor make two calls, the second on the store left by the
    first, and nothing is kept from one read to the next.  A descriptor
    built by the constructor has [provided = True], also once a process
    object is assigned to it. *)
Theorem diagnostic_state_recomputed (w : world) (l : loc)
    (d : DiagnosticVariable) :
  let c := (_func d, _process_obj d) in
  let r1 := funcs (_func d) (_process_obj d) (w_store w) in
  let w1 := {| w_store := r1.2; w_calls := w_calls w ++ [c] |} in
  let r2 := funcs (_func d) (_process_obj d) (w_store w1) in
  let w2 := {| w_store := r2.2; w_calls := w_calls w ++ [c; c] |} in
  (vars (w_store w) !! l = Some (ODiagnostic d) →
   get_state funcs l w = (r1.1, w1)) ∧
  (vars (w_store w1) !! l = Some (ODiagnostic d) →
   get_state funcs l w1 = (r2.1, w2)) ∧
  (∀ func descr attrs p,
     d_provided (DiagnosticVariable_init func descr attrs) = true ∧
     d_provided (assign_process_obj
                   (DiagnosticVariable_init func descr attrs) p) = true).
Proof.
  intros c r1 w1 r2 w2. split_and!.
  - intros Hl. unfold get_state, call. rewrite Hl.
    subst w1 c. fold r1. by destruct r1.
  - intros Hl. unfold get_state, call. rewrite Hl.
    subst w2. fold r2. destruct r2 as [r s]. cbn.
    by rewrite <- (assoc_L (++)).
  - done.
Qed.

(** C6: assigning to the state of a diagnostic descriptor raises
    [AttributeError], the signal of an unsupported operation (the
    property has no setter); the world stays as it was, so the bound
    function is not called and the value is not stored. *)
Theorem diagnostic_state_read_only (w : world) (l : loc)
    (d : DiagnosticVariable) (value : pyvalue) :
  vars (w_store w) !! l = Some (ODiagnostic d) →
  set_state l value w = (Raise (AttributeError "state"), w) ∧
  w_calls (set_state l value w).2 = w_calls w ∧
  w_store (set_state l value w).2 = w_store w.
Proof.
  intros Hl.
  assert (H : set_state l value w = (Raise (AttributeError "state"), w)).
  { unfold set_state. rewrite recursion_limit_S. cbn [set_state_depth].
    by rewrite Hl. }
  by rewrite H.
Qed.

End Facts.

(** A world for closed examples: the class [P] (location 1) declares the
    scalar variable [x] and the diagnostic [diag]; location 2 is an
    instance of [P] with its own copy of [x]. *)
Definition always_invalid : validator :=
  λ _, Raise (ValidationError "invalid").

Definition x_template : Variable_ :=
  set__state
    (Variable_init (DimsItem (DimTuple [])) "state_only" false false PyNone
                   [always_invalid] "" None)
    (PyScalar (DInt 64) 7).

Definition x_instance : Variable_ :=
  Variable_init (DimsItem (DimTuple [])) "state_only" false false PyNone
                [always_invalid] "" None.

Definition f_unbound : ForeignVariable :=
  ForeignVariable_init (ProcessObj 1%positive) "x" false.

Definition f_named : ForeignVariable :=
  ForeignVariable_init (ProcessName "P") "x" false.

Definition f_bound : ForeignVariable :=
  assign_other_process_obj f_unbound 2%positive.

Definition diag : DiagnosticVariable :=
  assign_process_obj (DiagnosticVariable_init "diag" "" None) 2%positive.

Definition example_store : store :=
  {| vars := <[10%positive := OVariable x_template]>
             (<[11%positive := OVariable x_instance]>
             (<[20%positive := OForeign f_unbound]>
             (<[21%positive := OForeign f_named]>
             (<[22%positive := OForeign f_bound]>
             (<[30%positive := ODiagnostic diag]> ∅)))));
     procs := <[1%positive := {| _variables := <["x" := 10%positive]> (<["diag" := 30%positive]> ∅);
                        p_class := None; _name := None |}]>
              (<[2%positive := {| _variables := <["x" := 11%positive]> (<["diag" := 30%positive]> ∅);
                         p_class := Some 1%positive; _name := None |}]> ∅)
  |}.

Definition example_world : world :=
  {| w_store := example_store; w_calls := [] |}.

Definition matrix : pyvalue :=
  PyArray {| nd_dtype := DFloat 64; nd_shape := [2; 2];
             nd_data := [1; 2; 3; 4]%Z |}.

(** The bound foreign descriptor at 22 and its target at 11. *)
Lemma foreign_state_aliasing_witness :
  let w' :=
    with_store
      (set_var 11 (OVariable (set__state x_instance (PyScalar (DInt 64) 5)))
               example_store) example_world in
  set_state 22 (PyScalar (DInt 64) 5) example_world = (Ok tt, w') ∧
  get_state no_funcs 11 w' = (Ok (PyScalar (DInt 64) 5), w') ∧
  set_state 11 (PyScalar (DInt 64) 5) example_world = (Ok tt, w') ∧
  get_state no_funcs 22 w' = (Ok (PyScalar (DInt 64) 5), w').
Proof.
  apply (foreign_state_aliasing no_funcs example_world 22 11 f_bound
           x_instance (PyScalar (DInt 64) 5)); reflexivity.
Defined.

(** The variable at 10 accepts scalars only and has a validator that
    always fails, but [validate] returns normally on a 2-d array. *)
Lemma validate_ignores_shape_and_validators :
  vars example_store !! 10%positive = Some (OVariable x_template) ∧
  value_ndim matrix = Some 2 ∧
  accepted_ndims (dims x_template) = [0] ∧
  always_invalid ∈ validators x_template ∧
  always_invalid matrix = Raise (ValidationError "invalid") ∧
  validate 10 matrix example_world = (Ok tt, example_world).
Proof.
  split_and!; try reflexivity. unfold validators. cbn. set_solver.
Qed.

Lemma validate_is_a_hook_witness :
  validate 10 matrix example_world = (Ok tt, example_world) ∧
  (∀ i vf e,
     validators x_template !! i = Some vf → vf matrix = Raise e →
     (∀ j vg, j < i → validators x_template !! j = Some vg →
              vg matrix = Ok tt) →
     run_validators 10 matrix example_world = (Raise e, example_world)) ∧
  ((∀ vf, vf ∈ validators x_template → vf matrix = Ok tt) →
   run_validators 10 matrix example_world = (Ok tt, example_world)).
Proof.
  apply (validate_is_a_hook example_world 10 x_template matrix).
  reflexivity.
Defined.

(** The foreign descriptor at 20 is not bound to an instance; reading it
    returns the state of the class-level variable and writing succeeds. *)
Lemma unbound_foreign_reads_template :
  vars example_store !! 20%positive = Some (OForeign f_unbound) ∧
  _other_process_obj f_unbound = None ∧
  get_state no_funcs 20 example_world
    = (Ok (PyScalar (DInt 64) 7), example_world) ∧
  (set_state 20 (PyScalar (DInt 64) 9) example_world).1 = Ok tt.
Proof. split_and!; reflexivity. Qed.

Lemma unbound_foreign_state_witness :
  (∀ name value,
     other_process f_unbound = ProcessName name →
     get_state no_funcs 20 example_world
       = (Raise (AttributeError "_variables"), example_world) ∧
     set_state 20 value example_world
       = (Raise (AttributeError "_variables"), example_world)) ∧
  (∀ c pc lt tv value,
     other_process f_unbound = ProcessObj c →
     procs example_store !! c = Some pc →
     _variables pc !! var_name f_unbound = Some lt →
     vars example_store !! lt = Some (OVariable tv) →
     get_state no_funcs 20 example_world = (Ok (_state tv), example_world) ∧
     set_state 20 value example_world =
       (Ok tt,
        with_store (set_var lt (OVariable (set__state tv value))
                            example_store) example_world)).
Proof.
  apply (unbound_foreign_state no_funcs example_world 20 f_unbound);
    reflexivity.
Defined.

(** Two consecutive reads of a diagnostic whose function counts its
    calls return different values. *)
Definition counting_world : world :=
  {| w_store :=
       {| vars := <[1%positive := OVariable (set__state x_instance
                                      (PyScalar (DInt 64) 0))]>
                  (<[30%positive := ODiagnostic diag]> ∅);
          procs := ∅ |};
     w_calls := [] |}.

Example diagnostic_two_reads :
  let (r1, w1) := get_state counter_funcs 30 counting_world in
  let (r2, w2) := get_state counter_funcs 30 w1 in
  r1 = Ok (PyScalar (DInt 64) 1) ∧ r2 = Ok (PyScalar (DInt 64) 2) ∧
  w_calls w2 = [("diag", Some 2%positive); ("diag", Some 2%positive)].
Proof. vm_compute. done. Qed.

Lemma diagnostic_state_recomputed_witness :
  ∃ w1 w2,
    get_state counter_funcs 30 counting_world
      = (Ok (PyScalar (DInt 64) 1), w1) ∧
    get_state counter_funcs 30 w1 = (Ok (PyScalar (DInt 64) 2), w2) ∧
    w_calls w2 = [("diag", Some 2%positive); ("diag", Some 2%positive)].
Proof.
  destruct (diagnostic_state_recomputed counter_funcs counting_world
              30%positive diag) as (H1 & H2 & _).
  eexists _, _. split_and!;
    [apply H1; reflexivity | apply H2; reflexivity | reflexivity].
Defined.

Lemma diagnostic_state_read_only_witness :
  set_state 30 (PyScalar (DInt 64) 5) example_world
    = (Raise (AttributeError "state"), example_world) ∧
  w_calls (set_state 30 (PyScalar (DInt 64) 5) example_world).2
    = w_calls example_world ∧
  w_store (set_state 30 (PyScalar (DInt 64) 5) example_world).2
    = w_store example_world.
Proof.
  apply (diagnostic_state_read_only example_world 30 diag). reflexivity.
Defined.

End VariablesFacts.

(** * Properties of process instantiation *)

Module ProcessesFacts.

Import Variables Processes.

Lemma fresh_var_unused (s : store) : vars s !! fresh (dom (vars s)) = None.
Proof. apply not_elem_of_dom. apply is_fresh. Qed.

Lemma fresh_proc_unused (s : store) : procs s !! fresh (dom (procs s)) = None.
Proof. apply not_elem_of_dom. apply is_fresh. Qed.

(** The deep copy succeeds when every listed descriptor exists; it leaves
    the existing objects alone and puts each copy at a location that was
    not in use. *)
Lemma deepcopy_variables_spec (p : loc) (items : list (string * loc))
    (s : store) :
  (∀ k l, (k, l) ∈ items → is_Some (vars s !! l)) →
  ∃ m s',
    deepcopy_variables p items s = (Ok m, s') ∧
    procs s' = procs s ∧
    (∀ l, is_Some (vars s !! l) → vars s' !! l = vars s !! l) ∧
    (∀ k l', m !! k = Some l' →
       vars s !! l' = None ∧
       ∃ l o, (k, l) ∈ items ∧ vars s !! l = Some o ∧
              vars s' !! l' = Some (bind_diagnostic p o)) ∧
    (∀ k l, (k, l) ∈ items → is_Some (m !! k)).
Proof.
  revert s. induction items as [|[k l] rest IH]; intros s Hall.
  - exists ∅, s. cbn. split_and!; try done.
    intros k l Hin. by apply elem_of_nil in Hin.
  - destruct (Hall k l) as [o Ho]; [by left |].
    cbn [deepcopy_variables]. rewrite Ho.
    set (l1 := fresh (dom (vars s))).
    set (s1 := set_var l1 (bind_diagnostic p o) s).
    assert (Hl1 : vars s !! l1 = None) by apply fresh_var_unused.
    assert (Hkeep : ∀ l0, is_Some (vars s !! l0) →
                          vars s1 !! l0 = vars s !! l0).
    { intros l0 [o0 Ho0]. subst s1. cbn. rewrite lookup_insert_ne; [done |].
      intros ->. congruence. }
    destruct (IH s1) as (m & s' & Hrun & Hprocs & Hold & Hnew & Hdom).
    { intros k0 l0 Hin. rewrite Hkeep; apply (Hall k0 l0); by right. }
    rewrite Hrun. exists (<[k := l1]> m), s'. split_and!.
    + done.
    + by rewrite Hprocs.
    + intros l0 Hsome. rewrite <- (Hkeep l0 Hsome). apply Hold.
      by rewrite Hkeep.
    + intros k0 l0' Hk0.
      destruct (decide (k = k0)) as [-> | Hne].
      * rewrite lookup_insert_eq in Hk0. simplify_eq. split; [done |].
        exists l, o. split_and!; [by left | done |].
        rewrite Hold; subst s1; cbn; by rewrite lookup_insert_eq.
      * rewrite lookup_insert_ne in Hk0 by done.
        destruct (Hnew k0 l0' Hk0) as (Hunused & l0 & o0 & Hin & Hl0 & Hcopy).
        assert (Hl0s : is_Some (vars s !! l0)) by (apply (Hall k0); by right).
        split.
        { subst s1. cbn in Hunused.
          apply lookup_insert_None in Hunused. tauto. }
        exists l0, o0. split_and!; [by right | | done].
        by rewrite <- (Hkeep l0 Hl0s).
    + intros k0 l0 Hin. destruct (decide (k = k0)) as [-> | Hne].
      * rewrite lookup_insert_eq. eauto.
      * rewrite lookup_insert_ne by done.
        apply elem_of_cons in Hin as [Heq | Hin]; [congruence |].
        by apply (Hdom k0 l0).
Qed.

(** Building a process from the descriptors of [src]: the new process
    object is fresh, and each of its descriptors is a copy, at an unused
    location, of the descriptor of the same name of [src]. *)
Lemma new_process_spec (src : loc) (cls : option loc) (name : option string)
    (s : store) (po : process_obj) :
  procs s !! src = Some po →
  process_closed s src →
  ∃ p s' m,
    new_process src cls name s = (Ok p, s') ∧
    procs s !! p = None ∧
    procs s' = <[p := {| _variables := m; p_class := cls;
                         _name := name |}]> (procs s) ∧
    (∀ l, is_Some (vars s !! l) → vars s' !! l = vars s !! l) ∧
    (∀ k l, _variables po !! k = Some l →
       ∃ l' o, m !! k = Some l' ∧ vars s !! l' = None ∧ l' ≠ l ∧
               vars s !! l = Some o ∧
               vars s' !! l' = Some (bind_diagnostic p o)).
Proof.
  intros Hsrc Hclosed. unfold process_closed in Hclosed.
  rewrite Hsrc in Hclosed.
  unfold new_process. rewrite Hsrc.
  set (p := fresh (dom (procs s))).
  destruct (deepcopy_variables_spec p (map_to_list (_variables po)) s)
    as (m & s' & Hrun & Hprocs & Hold & Hnew & Hdom).
  { intros k l Hin. apply elem_of_map_to_list in Hin.
    by apply (Hclosed k l). }
  rewrite Hrun.
  exists p, {| vars := vars s';
               procs := <[p := {| _variables := m; p_class := cls;
                                  _name := name |}]> (procs s') |}, m.
  split_and!.
  - done.
  - apply fresh_proc_unused.
  - cbn. by rewrite Hprocs.
  - done.
  - intros k l Hk.
    destruct (Hdom k l) as [l' Hl']; [by apply elem_of_map_to_list |].
    destruct (Hnew k l' Hl') as (Hunused & l0 & o & Hin & Hl0 & Hcopy).
    apply elem_of_map_to_list in Hin. simplify_eq.
    exists l', o. split_and!; try done. intros ->. congruence.
Qed.

Lemma set_state_owned (w : world) (l : loc) (v : Variable_)
    (value : pyvalue) :
  vars (w_store w) !! l = Some (OVariable v) →
  set_state l value w =
    (Ok tt,
     with_store (set_var l (OVariable (set__state v value)) (w_store w)) w).
Proof.
  intros Hl. unfold set_state. change recursion_limit with (S 999).
  cbn [set_state_depth]. by rewrite Hl.
Qed.

Lemma get_state_owned funcs (w : world) (l : loc) (v : Variable_) :
  vars (w_store w) !! l = Some (OVariable v) →
  get_state funcs l w = (Ok (_state v), w).
Proof. intros Hl. unfold get_state. by rewrite Hl. Qed.

Lemma new_process_independent funcs (src : loc) (cls : option loc)
    (name : option string) (s : store) (po : process_obj) :
  procs s !! src = Some po →
  process_closed s src →
  ∃ p s', new_process src cls name s = (Ok p, s') ∧
          independent_copy funcs s s' src p.
Proof.
  intros Hsrc Hclosed.
  destruct (new_process_spec src cls name s po Hsrc Hclosed)
    as (p & s' & m & Hrun & Hfresh & Hprocs & Hold & Hcopy).
  exists p, s'. split; [done |].
  exists po, {| _variables := m; p_class := cls; _name := name |}.
  assert (Hne : p ≠ src) by (intros ->; congruence).
  split_and!; [done | | done | |].
  - rewrite Hprocs. by rewrite lookup_insert_ne.
  - rewrite Hprocs. by rewrite lookup_insert_eq.
  - intros k l Hk.
    destruct (Hcopy k l Hk) as (l' & o & Hm & Hunused & Hll & Hl & Hl').
    exists l'. split_and!; [done | done | done |].
    intros v value calls Hv w'. rewrite Hl in Hv. simplify_eq.
    cbn in Hl'.
    assert (Hl_s' : vars s' !! l = Some (OVariable v)).
    { rewrite Hold; [done | by rewrite Hl]. }
    split_and!.
    + by apply get_state_owned.
    + eexists. split; [by apply set_state_owned |]. split.
      * apply (get_state_owned funcs _ l (set__state v value)).
        cbn. by rewrite lookup_insert_eq.
      * apply get_state_owned. cbn. by rewrite lookup_insert_ne.
    + eexists. split; [by apply set_state_owned |]. split.
      * apply (get_state_owned funcs _ l' (set__state v value)).
        cbn. by rewrite lookup_insert_eq.
      * apply get_state_owned. cbn. by rewrite lookup_insert_ne.
Qed.

(** C7: instantiating a process class copies its descriptors: the
    instance is a new process whose descriptors are other objects than
    those of the class, so assigning the state of a class-level
    descriptor leaves the state of the instance's descriptor as it was
    (and the other way round).  A clone of a process stands in the same
    relation to the process it was cloned from. *)
Theorem instances_do_not_share_state funcs (s : store) (src : loc) :
  process_closed s src →
  (∃ p s', Process_init src s = (Ok p, s') ∧
           independent_copy funcs s s' src p) ∧
  (∃ p s', clone src s = (Ok p, s') ∧
           independent_copy funcs s s' src p).
Proof.
  intros Hclosed.
  assert (Hsrc : ∃ po, procs s !! src = Some po).
  { unfold process_closed in Hclosed. destruct (procs s !! src); [eauto | done]. }
  destruct Hsrc as [po Hsrc]. split.
  - by apply (new_process_independent funcs src _ _ s po).
  - unfold clone. rewrite Hsrc.
    by apply (new_process_independent funcs src _ _ s po).
Qed.

Lemma instances_do_not_share_state_witness :
  (∃ p s', Process_init 1 VariablesFacts.example_store = (Ok p, s') ∧
           independent_copy VariablesFacts.no_funcs
             VariablesFacts.example_store s' 1 p) ∧
  (∃ p s', clone 1 VariablesFacts.example_store = (Ok p, s') ∧
           independent_copy VariablesFacts.no_funcs
             VariablesFacts.example_store s' 1 p).
Proof.
  apply (instances_do_not_share_state VariablesFacts.no_funcs
           VariablesFacts.example_store 1%positive).
  apply (bool_decide_unpack _). vm_compute. exact I.
Defined.

End ProcessesFacts.

(** * Properties of the execution order resolver *)

Module ResolverFacts.

Import Resolver.

Lemma ready_true (es : list (string * string)) (rem : list string)
    (n : string) :
  ready es rem n = true → ∀ u, (u, n) ∈ es → u ∉ rem.
Proof.
  unfold ready, has_unresolved_pred. intros Hr u Hin Hrem.
  apply negb_true_iff in Hr.
  assert (Hex : existsb
            (λ e, bool_decide (e.2 = n) && bool_decide (e.1 ∈ rem)) es = true).
  { apply existsb_exists. exists (u, n). split.
    - by apply list_elem_of_In.
    - cbn. apply andb_true_iff. split; by apply bool_decide_eq_true. }
  congruence.
Qed.

Lemma ready_false (es : list (string * string)) (rem : list string)
    (n : string) :
  ready es rem n = false → ∃ u, (u, n) ∈ es ∧ u ∈ rem.
Proof.
  unfold ready, has_unresolved_pred. intros Hr.
  apply negb_false_iff, existsb_exists in Hr.
  destruct Hr as ([u v] & Hin & Hb). cbn in Hb.
  apply andb_true_iff in Hb as [Hv Hu].
  apply bool_decide_eq_true in Hv, Hu. subst v.
  exists u. split; [by apply list_elem_of_In | done].
Qed.

(** A graph whose edges all go upwards along some ranking of the
    components has no cycle. *)
Lemma acyclic_by_rank (g : graph) (rank : string → nat) :
  Forall (λ e, rank e.1 < rank e.2) (edges g) → acyclic g.
Proof.
  intros Hrank.
  assert (Hup : ∀ u v, tc (edge_rel (edges g)) u v → rank u < rank v).
  { intros u v Htc. induction Htc as [u v He | u v z He _ IH].
    - rewrite Forall_forall in Hrank. apply (Hrank (u, v) He).
    - rewrite Forall_forall in Hrank. specialize (Hrank (u, v) He).
      cbn in Hrank. lia. }
  intros u Hu. specialize (Hup u u Hu). lia.
Qed.

(** In a graph without cycle, a non-empty list of components cannot
    lack a member that no other member reaches. *)
Lemma minimal_member (g : graph) (S : list string) :
  acyclic g → S ≠ [] →
  ¬ ¬ ∃ m, m ∈ S ∧ ∀ y, y ∈ S → ¬ tc (edge_rel (edges g)) y m.
Proof.
  intros Hacyc. induction S as [|x S IH]; [done |]. intros _ Hnone.
  destruct S as [|x' S].
  - apply Hnone. exists x. split; [by left |].
    intros y Hy. apply list_elem_of_singleton in Hy as ->. apply Hacyc.
  - apply IH; [done |]. intros (m & Hm & Hmin).
    assert (Hem : ¬ ¬ (tc (edge_rel (edges g)) x m
                      ∨ ¬ tc (edge_rel (edges g)) x m)) by tauto.
    apply Hem. intros [Hxm | Hxm]; apply Hnone.
    + exists x. split; [by left |]. intros y Hy Hyx.
      apply elem_of_cons in Hy as [-> | Hy]; [by apply (Hacyc x) |].
      apply (Hmin y Hy). by etrans.
    + exists m. split; [by right |]. intros y Hy Hym.
      apply elem_of_cons in Hy as [-> | Hy]; [done |].
      by apply (Hmin y Hy).
Qed.

Lemma find_ready (g : graph) (rem : list string) :
  acyclic g → rem ≠ [] →
  ∃ n, find (ready (edges g) rem) rem = Some n.
Proof.
  intros Hacyc Hne. destruct (find _ rem) as [n|] eqn:Hfind; [eauto |].
  exfalso. apply (minimal_member g rem Hacyc Hne).
  intros (m & Hm & Hmin).
  pose proof (find_none _ _ Hfind m) as Hnot.
  destruct (ready_false (edges g) rem m) as (u & Hedge & Hu).
  { apply Hnot. by apply list_elem_of_In. }
  apply (Hmin u Hu). by apply tc_once.
Qed.

Lemma remove_placed (rem : list string) (n : string) :
  NoDup rem → n ∈ rem →
  NoDup (filter (λ m, m ≠ n) rem) ∧ rem ≡ₚ n :: filter (λ m, m ≠ n) rem.
Proof.
  intros Hnd Hn.
  assert (Hnd' : NoDup (filter (λ m, m ≠ n) rem)) by by apply NoDup_filter.
  split; [done |]. apply NoDup_Permutation; [done | |].
  - apply NoDup_cons. split; [| done].
    rewrite list_elem_of_filter. tauto.
  - intros x. rewrite elem_of_cons, list_elem_of_filter.
    destruct (decide (x = n)) as [-> | Hne].
    + split; [by left | done].
    + split; [intros; by right | intros [? | [_ ?]]; done].
Qed.

Lemma before_cons (u v x : string) (l : list string) :
  before u v l → before u v (x :: l).
Proof. intros (l1 & l2 & l3 & ->). by exists (x :: l1), l2, l3. Qed.

Lemma before_head (u v : string) (l : list string) :
  v ∈ l → before u v (u :: l).
Proof.
  intros Hv. apply list_elem_of_split in Hv as (l2 & l3 & ->).
  by exists [], l2, l3.
Qed.

(** The loop places all remaining components, and every edge between
    two of them goes forward in the order in which they are placed. *)
Lemma resolve_loop_spec (g : graph) (fuel : nat) :
  acyclic g →
  ∀ rem placed,
    NoDup rem → length rem ≤ fuel →
    ∃ tail,
      resolve_loop fuel (edges g) rem placed = Ok (rev placed ++ tail) ∧
      tail ≡ₚ rem ∧
      ∀ u v, (u, v) ∈ edges g → u ∈ rem → v ∈ rem → before u v tail.
Proof.
  intros Hacyc. induction fuel as [|fuel IH]; intros rem placed Hnd Hlen.
  - destruct rem; [| cbn in Hlen; lia].
    exists []. cbn. rewrite app_nil_r. split_and!; [done | done |].
    intros u v _ Hu. by apply elem_of_nil in Hu.
  - destruct rem as [|r rs] eqn:Hrem.
    { exists []. cbn. rewrite app_nil_r. split_and!; [done | done |].
      intros u v _ Hu. by apply elem_of_nil in Hu. }
    rewrite <- Hrem in *.
    destruct (find_ready g rem Hacyc) as [n Hfind]; [by rewrite Hrem |].
    assert (Hstep : resolve_loop (S fuel) (edges g) rem placed
                    = resolve_loop fuel (edges g)
                        (filter (λ m, m ≠ n) rem) (n :: placed)).
    { rewrite Hrem in *. cbn [resolve_loop]. by rewrite Hfind. }
    rewrite Hstep.
    apply find_some in Hfind as [Hn Hready].
    apply list_elem_of_In in Hn.
    destruct (remove_placed rem n Hnd Hn) as [Hnd' Hperm].
    assert (Hlen' : length (filter (λ m, m ≠ n) rem) ≤ fuel).
    { apply Permutation_length in Hperm. cbn in Hperm. lia. }
    destruct (IH _ (n :: placed) Hnd' Hlen') as (tail & Hrun & Htail & Hedges).
    exists (n :: tail). split_and!.
    + rewrite Hrun. cbn. by rewrite <- (assoc_L (++)).
    + rewrite Hperm. by constructor.
    + intros u v He Hu Hv.
      destruct (decide (v = n)) as [-> | Hvn].
      { by destruct (ready_true _ _ _ Hready u He). }
      assert (Hv' : v ∈ filter (λ m, m ≠ n) rem)
        by by apply list_elem_of_filter.
      destruct (decide (u = n)) as [-> | Hun].
      * apply before_head. by rewrite Htail.
      * apply before_cons, Hedges; [done | | done].
        by apply list_elem_of_filter.
Qed.

Lemma position_is_Some (x : string) (l : list string) :
  x ∈ l → is_Some (position x l).
Proof.
  induction l as [|y l IH]; intros Hx; [by apply elem_of_nil in Hx |].
  cbn. destruct (decide (x = y)); [eauto |].
  apply elem_of_cons in Hx as [? | Hx]; [done |].
  destruct (IH Hx) as [i ->]. cbn. eauto.
Qed.

Lemma before_position (u v : string) (l : list string) :
  NoDup l → before u v l →
  ∃ i j, position u l = Some i ∧ position v l = Some j ∧ i < j.
Proof.
  intros Hnd (l1 & l2 & l3 & ->). induction l1 as [|a l1 IH].
  - cbn in *. apply NoDup_cons in Hnd as [Hu Hnd].
    assert (Hv : v ∈ l2 ++ v :: l3) by (apply elem_of_app; right; by left).
    destruct (position_is_Some v _ Hv) as [j Hj].
    exists 0, (S j). rewrite decide_True by done.
    rewrite decide_False by (intros ->; done).
    rewrite Hj. split_and!; [done | done | lia].
  - cbn in Hnd. apply NoDup_cons in Hnd as [Ha Hnd].
    destruct (IH Hnd) as (i & j & Hi & Hj & Hlt).
    exists (S i), (S j). cbn.
    rewrite decide_False.
    2:{ intros ->. apply Ha. apply elem_of_app. right. by left. }
    rewrite decide_False.
    2:{ intros ->. apply Ha. apply elem_of_app. right. right.
        apply elem_of_app. right. by left. }
    rewrite Hi, Hj. split_and!; [done | done | lia].
Qed.

(** C2: on a dependency graph without cycle over the components of a
    model, the resolver returns an order: it lists every component once,
    and for every edge from a producer [u] to a consumer [v] the position
    of [u] in the order is smaller than the position of [v]. *)
Theorem execution_order_respects_edges (g : graph) :
  well_formed g → acyclic g →
  ∃ order,
    execution_order g = Ok order ∧
    order ≡ₚ nodes g ∧
    ∀ u v, (u, v) ∈ edges g →
      ∃ i j, position u order = Some i ∧ position v order = Some j ∧ i < j.
Proof.
  intros [Hnd Hends] Hacyc.
  destruct (resolve_loop_spec g (length (nodes g)) Hacyc (nodes g) [] Hnd)
    as (order & Hrun & Hperm & Hedges); [done |].
  exists order. split_and!; [done | done |].
  intros u v He. rewrite Forall_forall in Hends.
  destruct (Hends (u, v) He) as [Hu Hv]. cbn in Hu, Hv.
  apply before_position; [by rewrite Hperm |]. by apply Hedges.
Qed.

(** Three components: [A] feeds [B] and [C], and [C] feeds [B]. *)
Definition example_graph : graph :=
  {| nodes := ["A"; "B"; "C"];
     edges := [("A", "B"); ("A", "C"); ("C", "B")] |}.

Example example_order : execution_order example_graph = Ok ["A"; "C"; "B"].
Proof. reflexivity. Qed.

Example example_cycle :
  execution_order {| nodes := ["A"; "B"; "C"];
                     edges := [("B", "C"); ("C", "B")] |}
  = Raise (CycleDetected ["B"; "C"]).
Proof. reflexivity. Qed.

Lemma execution_order_respects_edges_witness :
  ∃ order,
    execution_order example_graph = Ok order ∧
    order ≡ₚ nodes example_graph ∧
    ∀ u v, (u, v) ∈ edges example_graph →
      ∃ i j, position u order = Some i ∧ position v order = Some j ∧ i < j.
Proof.
  apply (execution_order_respects_edges example_graph).
  - apply (bool_decide_unpack _). vm_compute. exact I.
  - apply (acyclic_by_rank _
             (λ s, default 0 (position s ["A"; "C"; "B"]))).
    apply (bool_decide_unpack _). vm_compute. exact I.
Defined.

End ResolverFacts.

(** * Properties of the zarr output store *)

Module StoresFacts.

Import Stores.

(** The loop over the declared dims keeps the last tuple of the right
    length. *)
Lemma find_dim_labels_last (dims : list (list string)) (nd : nat) :
  find_dim_labels dims nd = last (filter (λ d, length d = nd) dims).
Proof.
  unfold find_dim_labels.
  assert (Hgen : ∀ acc,
    foldl (λ dim_labels d,
             if decide (length d = nd) then Some d else dim_labels) acc dims
    = match last (filter (λ d, length d = nd) dims) with
      | Some d => Some d
      | None => acc
      end).
  { induction dims as [|d dims IH]; intros acc; [done |].
    cbn [foldl]. rewrite IH. rewrite filter_cons.
    destruct (decide (length d = nd)) as [Hd | Hd]; [| done].
    rewrite last_cons. by destruct (last (filter _ dims)). }
  rewrite Hgen. by destruct (last _).
Qed.

Lemma find_dim_labels_None (dims : list (list string)) (nd : nat) :
  find_dim_labels dims nd = None ↔ ∀ d, d ∈ dims → length d ≠ nd.
Proof.
  rewrite find_dim_labels_last, last_None. split.
  - intros Hnil d Hd Hlen.
    assert (Hin : d ∈ filter (λ d, length d = nd) dims)
      by by apply list_elem_of_filter.
    rewrite Hnil in Hin. by apply elem_of_nil in Hin.
  - intros Hall. apply elem_of_nil_inv. intros d Hd.
    apply list_elem_of_filter in Hd as [Hlen Hd]. by apply (Hall d).
Qed.

(** The array [create_dataset] adds to the group. *)
Definition blank_array (shape : list nat) (dt : dtype) : zarray :=
  {| z_shape := shape; z_dtype := dt;
     z_fill := default_fill_value_from_dtype dt; z_attrs := ∅;
     z_data := replicate (size_of shape) CFill |}.

(** The shape of the array that stores a value: the size of the clock
    comes first for a variable sampled along a clock. *)
Definition storage_shape (c : clock) (sizes : gmap string nat)
    (value : npvalue) : option (list nat) :=
  match c with
  | None => Some (nd_shape (np_asarray value))
  | Some name =>
      match sizes !! name with
      | Some n => Some (n :: nd_shape (np_asarray value))
      | None => None
      end
  end.

Definition clocked_labels (c : clock) (dims : list string) : list string :=
  match c with Some name => name :: dims | None => dims end.

(** The fill value of a dtype is a number, except for a complex
    dtype. *)
Lemma valid_fill_default (dt : dtype) :
  valid_fill (default_fill_value_from_dtype dt)
  = bool_decide (dtype_kind dt ≠ "c").
Proof. by destruct dt. Qed.

Lemma create_dataset_new (name : string) (shape : list nat) (dt : dtype)
    (g : gmap string zarray) :
  g !! name = None → dtype_kind dt ≠ "c" →
  create_dataset name shape dt (default_fill_value_from_dtype dt) g
  = Ok (<[name := blank_array shape dt]> g).
Proof.
  intros Hfree Hdt. unfold create_dataset.
  rewrite Hfree, valid_fill_default. by rewrite bool_decide_eq_true_2.
Qed.

(** One call of [_create_zarr_dataset], when the variable is known, its
    value can be read and is not complex, the size of its clock is known
    and no array of its name exists. *)
Lemma create_zarr_dataset_step (st : ZarrOutputStore) (vk : var_key)
    (name_arg : option string) (vi : var_info_entry) (value : npvalue)
    (shape : list nat) :
  var_info st !! vk = Some vi →
  model st !! vi_value_getter vi = Some value →
  dtype_kind (nd_dtype (np_asarray value)) ≠ "c" →
  storage_shape (vi_clock vi) (clock_sizes st) value = Some shape →
  zgroup st !! default (vi_name vi) name_arg = None →
  let name := default (vi_name vi) name_arg in
  let array := np_asarray value in
  let blank := blank_array shape (nd_dtype array) in
  _create_zarr_dataset vk name_arg st =
    match find_dim_labels (md_dims (vi_obj vi)) (ndim array) with
    | None =>
        (Raise (ValueError (dims_error_message (ndim array) name
                              (md_dims (vi_obj vi)))),
         set_zgroup (<[name := blank]> (zgroup st)) st)
    | Some dims =>
        (Ok tt,
         set_consolidated false
           (set_zgroup
              (<[name := with_attrs blank
                           (dataset_attrs (vi_obj vi)
                              (clocked_labels (vi_clock vi) dims) ∅)]>
                 (zgroup st)) st))
    end.
Proof.
  intros Hvi Hval Hdt Hshape Hfree name array blank.
  unfold _create_zarr_dataset, bind, get_var_info, value_getter, lift.
  rewrite Hvi, Hval. unfold storage_shape in Hshape.
  destruct (vi_clock vi) as [c|] eqn:Hc.
  - unfold get_clock_size, lift, ret.
    destruct (clock_sizes st !! c) as [n|] eqn:Hn; simplify_eq.
    unfold on_zgroup. rewrite (create_dataset_new _ _ _ _ Hfree Hdt).
    destruct (find_dim_labels _ _) as [dims|]; [| done].
    cbn. rewrite alter_insert_eq. done.
  - unfold ret. simplify_eq.
    unfold on_zgroup. rewrite (create_dataset_new _ _ _ _ Hfree Hdt).
    destruct (find_dim_labels _ _) as [dims|]; [| done].
    cbn. rewrite alter_insert_eq. done.
Qed.

Lemma string_app_assoc (a b c : string) : (a +:+ b) +:+ c = a +:+ b +:+ c.
Proof.
  induction a as [|ch a IH]; [done |].
  change (String ch ((a +:+ b) +:+ c) = String ch (a +:+ b +:+ c)).
  by rewrite IH.
Qed.

(** The error message quotes the name of the array. *)
Lemma dims_error_message_names (nd : nat) (name : string)
    (dims : list (list string)) :
  ∃ pre post,
    dims_error_message nd name dims = pre +:+ "'" +:+ name +:+ "'" +:+ post.
Proof.
  exists ("Output array of " +:+ repr_nat nd +:+ " dimension(s) for variable "),
         (" doesn't match any of its accepted dimension(s): "
          +:+ repr_dims dims).
  unfold dims_error_message. rewrite !string_app_assoc. reflexivity.
Qed.

Lemma dataset_attrs_dimension_key (var : var_metadata)
    (labels : list string) :
  (md_attrs var !! _DIMENSION_KEY = None →
   dataset_attrs var labels ∅ !! _DIMENSION_KEY = Some (AttrTuple labels)) ∧
  (∀ a, md_attrs var !! _DIMENSION_KEY = Some a →
        dataset_attrs var labels ∅ !! _DIMENSION_KEY = Some a).
Proof.
  unfold dataset_attrs. split.
  - intros Hnone. rewrite lookup_union_r by done.
    destruct (decide (md_description var = "")).
    + by rewrite lookup_insert_eq.
    + rewrite lookup_insert_ne by done. by rewrite lookup_insert_eq.
  - intros a Ha. by apply lookup_union_Some_l.
Qed.

(** C9 (as the code has it): when [_create_zarr_dataset] gets as far as
    the dimension labels (the variable is known, its value is read, the
    size of its clock is known and zarr creates the array: no array of
    that name exists and the dtype of the value is not complex), then
    - if no declared dims tuple has as many labels as the value has
      dimensions, it raises a [ValueError] whose message quotes the name
      of the array;
    - otherwise it returns, and the labels are those of the last declared
      dims tuple of that length, preceded by the clock for a variable
      with a clock.  They are what [_ARRAY_DIMENSIONS] holds in the end,
      unless the attrs of the variable have an entry of that name, which
      then takes their place. *)
Theorem dimension_labels_recorded (st : ZarrOutputStore) (vk : var_key)
    (name_arg : option string) (vi : var_info_entry) (value : npvalue)
    (shape : list nat) :
  var_info st !! vk = Some vi →
  model st !! vi_value_getter vi = Some value →
  dtype_kind (nd_dtype (np_asarray value)) ≠ "c" →
  storage_shape (vi_clock vi) (clock_sizes st) value = Some shape →
  zgroup st !! default (vi_name vi) name_arg = None →
  let name := default (vi_name vi) name_arg in
  let nd := ndim (np_asarray value) in
  let var := vi_obj vi in
  ((∀ d, d ∈ md_dims var → length d ≠ nd) →
   ∃ pre post,
     (_create_zarr_dataset vk name_arg st).1
     = Raise (ValueError (pre +:+ "'" +:+ name +:+ "'" +:+ post))) ∧
  (∀ dims,
     last (filter (λ d, length d = nd) (md_dims var)) = Some dims →
     let labels := clocked_labels (vi_clock vi) dims in
     ∃ st' za,
       _create_zarr_dataset vk name_arg st = (Ok tt, st') ∧
       zgroup st' !! name = Some za ∧
       (md_attrs var !! _DIMENSION_KEY = None →
        z_attrs za !! _DIMENSION_KEY = Some (AttrTuple labels)) ∧
       (∀ a, md_attrs var !! _DIMENSION_KEY = Some a →
             z_attrs za !! _DIMENSION_KEY = Some a)).
Proof.
  intros Hvi Hval Hdt Hshape Hfree name nd var.
  pose proof (create_zarr_dataset_step st vk name_arg vi value shape
                Hvi Hval Hdt Hshape Hfree) as Hstep.
  cbv zeta in Hstep. fold name nd var in Hstep. split.
  - intros Hnone. apply find_dim_labels_None in Hnone.
    rewrite Hnone in Hstep. rewrite Hstep. cbn.
    destruct (dims_error_message_names nd name (md_dims var))
      as (pre & post & ->). eauto.
  - intros dims Hlast labels. rewrite <- find_dim_labels_last in Hlast.
    rewrite Hlast in Hstep. eexists _, _. split; [exact Hstep |].
    cbn. rewrite lookup_insert_eq. split; [done |]. cbn.
    apply dataset_attrs_dimension_key.
Qed.

(** *** The loops of [write_output_vars] *)



Definition cells_of (value : npvalue) : list cell :=
  CVal <$> nd_data (np_asarray value).


(** The array it creates. *)
Definition created_array (st : ZarrOutputStore) (vi : var_info_entry)
    (value : npvalue) : zarray :=
  with_attrs
    (blank_array
       (default [] (storage_shape (vi_clock vi) (clock_sizes st) value))
       (nd_dtype (np_asarray value)))
    (dataset_attrs (vi_obj vi)
       (clocked_labels (vi_clock vi)
          (default [] (find_dim_labels (md_dims (vi_obj vi))
                         (ndim (np_asarray value))))) ∅).



Lemma cells_for_same_shape (sel : list nat) (value : npvalue) :
  nd_shape (np_asarray value) = sel →
  cells_for sel value = Ok (cells_of value).
Proof.
  intros <-. destruct value as [dt x | a]; [done |].
  unfold cells_for. cbn. by rewrite decide_True.
Qed.

Lemma setitem_all_same_shape (zkey : string) (value : npvalue)
    (g : gmap string zarray) (za : zarray) :
  g !! zkey = Some za →
  z_shape za = nd_shape (np_asarray value) → z_shape za ≠ [] →
  setitem_all zkey value g = Ok (<[zkey := with_data za (cells_of value)]> g).
Proof.
  intros Hza Hshape Hdim. unfold setitem_all. rewrite Hza.
  destruct (z_shape za) as [|n sel] eqn:Hsel; [done |].
  by rewrite (cells_for_same_shape _ value (eq_sym Hshape)).
Qed.











(** *** What a call leaves alone *)

(** From [st] to [st'] the description of the variables and the counter
    of the variables without clock are kept, and so is every array whose
    name is not among [names]. *)
Definition frame (names : list string) (st st' : ZarrOutputStore) : Prop :=
  var_info st' = var_info st ∧
  clock_incs st' !! None = clock_incs st !! None ∧
  ∀ name, name ∉ names → zgroup st' !! name = zgroup st !! name.



Lemma frame_set_zgroup_insert (st : ZarrOutputStore) (name : string)
    (za : zarray) :
  frame [name] st (set_zgroup (<[name := za]> (zgroup st)) st).
Proof.
  split_and!; [done | done |]. intros n Hn. cbn.
  apply not_elem_of_cons in Hn as [Hn _]. by rewrite lookup_insert_ne.
Qed.










Lemma bind_get_var_info {B} (vk : var_key) (k : var_info_entry → M B)
    (st : ZarrOutputStore) :
  bind (get_var_info vk) k st =
    match var_info st !! vk with
    | Some vi => k vi st
    | None => (Raise (KeyError (key_of_var vk)), st)
    end.
Proof.
  unfold bind, get_var_info, lift. by destruct (var_info st !! vk).
Qed.













(** *** The whole of [write_output_vars] *)

(** The turn of the loop over the clocks for [c] is skipped. *)
Definition skipped (istep : Z) (save_istep : gmap string bool) (c : clock)
    : bool :=
  bool_decide (c = None) && bool_decide (istep ≠ (-1)%Z)
  || negb (data_vars_get save_istep c).


Lemma write_clock_vars_skipped (istep : Z) (save_istep : gmap string bool)
    (c : clock) (vks : list var_key) (st : ZarrOutputStore) :
  skipped istep save_istep c = true →
  write_clock_vars istep save_istep (c, vks) st = (Ok tt, st).
Proof.
  unfold skipped, write_clock_vars. intros H.
  destruct (bool_decide (c = None) && bool_decide (istep ≠ (-1)%Z));
    [done |].
  cbn in H. by rewrite H.
Qed.

Lemma skipped_false (istep : Z) (save_istep : gmap string bool) (c : clock) :
  skipped istep save_istep c = false →
  (c = None → istep = (-1)%Z) ∧ data_vars_get save_istep c = true.
Proof.
  unfold skipped. intros H. apply orb_false_iff in H as [H1 H2].
  apply negb_false_iff in H2. split; [| done]. intros ->.
  rewrite bool_decide_eq_true_2 in H1 by done. cbn in H1.
  apply bool_decide_eq_false in H1.
  destruct (decide (istep = (-1)%Z)) as [| Hne]; [done | by destruct H1].
Qed.







(** *** A store for closed examples

    The process [p] has the variable [x], a series sampled along the
    clock [time] of three steps, the scalar [s] without clock, and the
    variable [u] whose attrs have an entry named [_ARRAY_DIMENSIONS]. *)
Definition series : npvalue :=
  NpArray {| nd_dtype := DFloat 64; nd_shape := [2]; nd_data := [1; 2]%Z |}.

Definition x_info : var_info_entry :=
  {| vi_clock := Some "time"; vi_name := "p__x";
     vi_obj := {| md_dims := [[]; ["x"]]; md_description := "elevation";
                  md_attrs := ∅ |};
     vi_value_getter := ("p", "x") |}.

Definition s_info : var_info_entry :=
  {| vi_clock := None; vi_name := "p__s";
     vi_obj := {| md_dims := [[]]; md_description := ""; md_attrs := ∅ |};
     vi_value_getter := ("p", "s") |}.

Definition u_info : var_info_entry :=
  {| vi_clock := None; vi_name := "p__u";
     vi_obj := {| md_dims := [["x"]]; md_description := "";
                  md_attrs := {[ _DIMENSION_KEY := AttrTuple ["bogus"] ]} |};
     vi_value_getter := ("p", "u") |}.

Definition demo_store : ZarrOutputStore :=
  {| model := <[("p", "x") := series]>
              (<[("p", "s") := NpScalar (DFloat 64) 3]>
              (<[("p", "u") := series]> ∅));
     zgroup := ∅;
     in_memory := true;
     consolidated := false;
     output_vars := [(Some "time", [("p", "x")]); (None, [("p", "s")])];
     output_save_steps :=
       {| ss_nsteps := 3; ss_vars := {[ "time" := [true; false; true] ]} |};
     var_info := <[("p", "x") := x_info]>
                 (<[("p", "s") := s_info]>
                 (<[("p", "u") := u_info]> ∅));
     clock_sizes := {[ "time" := 3 ]};
     clock_incs := init_clock_incs ["time"] |}.

(** The first step creates and fills the array of [x] only. *)
Example first_step :
  let (r, st) := write_output_vars 0 demo_store in
  r = Ok tt ∧
  z_shape <$> zgroup st !! "p__x" = Some [3; 2] ∧
  z_data <$> zgroup st !! "p__x"
    = Some [CVal 1; CVal 2; CFill; CFill; CFill; CFill] ∧
  zgroup st !! "p__s" = None ∧
  clock_incs st !! Some "time" = Some 1 ∧
  clock_incs st !! None = Some 0.
Proof. vm_compute. by split_and!. Qed.

(** The second step is not a save step of the clock: nothing happens.
    The last step, given as -1, writes [x] at index 1 and creates the
    array of [s]; the assignment of the scalar to it then fails. *)
Example later_steps :
  let (_, st1) := write_output_vars 0 demo_store in
  let (r2, st2) := write_output_vars 1 st1 in
  let (r3, st3) := write_output_vars (-1) st2 in
  r2 = Ok tt ∧ zgroup st2 = zgroup st1 ∧ r3 = Raise IndexError ∧
  z_data <$> zgroup st3 !! "p__x"
    = Some [CVal 1; CVal 2; CVal 1; CVal 2; CFill; CFill] ∧
  z_shape <$> zgroup st3 !! "p__s" = Some [] ∧
  z_data <$> zgroup st3 !! "p__s" = Some [CFill] ∧
  clock_incs st3 !! Some "time" = Some 2 ∧
  clock_incs st3 !! None = Some 0.
Proof. vm_compute. by split_and!. Qed.

(** The same store with a complex number for [x]. *)
Definition complex_store : ZarrOutputStore :=
  {| model := <[("p", "x") := NpScalar (DComplex 128) 1]> (model demo_store);
     zgroup := ∅;
     in_memory := true;
     consolidated := false;
     output_vars := output_vars demo_store;
     output_save_steps := output_save_steps demo_store;
     var_info := var_info demo_store;
     clock_sizes := clock_sizes demo_store;
     clock_incs := clock_incs demo_store |}.

(** C8 (where the code departs from it).  A scalar without clock is
    taken as a 0-d array and its array is created with the shape [()],
    but the assignment of the value through the slice [[:]] then raises
    [IndexError], so the first write does not store it.  A complex value
    is not stored either: the fill value of a complex dtype is a tuple,
    which [create_dataset] refuses with a [ValueError], so that the first
    write for the clock creates no array and leaves the store as it
    was. *)
Theorem scalar_or_complex_first_write_fails :
  (let (r, st) := _create_zarr_dataset ("p", "s") None demo_store in
   r = Ok tt ∧
   z_shape <$> zgroup st !! "p__s" = Some [] ∧
   z_dtype <$> zgroup st !! "p__s" = Some (DFloat 64) ∧
   write_var None 0 ("p", "s") st = (Raise IndexError, st)) ∧
  (∃ msg, write_output_vars 0 complex_store
          = (Raise (ValueError msg), complex_store)).
Proof.
  split.
  - vm_compute. by split_and!.
  - eexists. vm_compute. reflexivity.
Qed.

(** C10 (where the code departs from it).  The call with step index -1
    makes the turn for the variables without clock, but for the scalar
    [s] it only creates the array: the assignment through [[:]] raises
    [IndexError], the array keeps the fill value and the counter of the
    variables without clock stays at 0.  A second call with step index -1
    therefore tries to create the array again and raises
    [ContainsArrayError]. *)
Theorem clockless_scalar_created_not_written :
  let (r, st) := write_output_vars (-1) demo_store in
  r = Raise IndexError ∧
  z_shape <$> zgroup st !! "p__s" = Some [] ∧
  z_data <$> zgroup st !! "p__s" = Some [CFill] ∧
  clock_incs st !! None = Some 0 ∧
  (write_output_vars (-1) st).1 = Raise (ContainsArrayError "p__s").
Proof. vm_compute. by split_and!. Qed.

(** The attrs of [u] replace the labels of its one declared dims
    tuple. *)
Lemma attrs_replace_dimension_labels :
  var_info demo_store !! ("p", "u") = Some u_info ∧
  ndim (np_asarray series) = 1 ∧
  last (filter (λ d, length d = 1) (md_dims (vi_obj u_info))) = Some ["x"] ∧
  vi_clock u_info = None ∧
  let (r, st') := _create_zarr_dataset ("p", "u") None demo_store in
  r = Ok tt ∧
  (zgroup st' !! "p__u") ≫= (λ za, z_attrs za !! _DIMENSION_KEY)
    = Some (AttrTuple ["bogus"]).
Proof. vm_compute. by split_and!. Qed.

Lemma dimension_labels_recorded_witness :
  ∃ st' za,
    _create_zarr_dataset ("p", "x") None demo_store = (Ok tt, st') ∧
    zgroup st' !! "p__x" = Some za ∧
    z_attrs za !! _DIMENSION_KEY = Some (AttrTuple ["time"; "x"]).
Proof.
  destruct (dimension_labels_recorded demo_store ("p", "x") None x_info
              series [3; 2]) as [_ Hlabels]; try reflexivity; [done |].
  destruct (Hlabels ["x"]) as (st' & za & Hrun & Hza & Hkey & _);
    [reflexivity |].
  exists st', za. split_and!; [done | done |]. by apply Hkey.
Defined.

End StoresFacts.

(** * Further properties of the descriptors *)

Module VariablesMore.

Import Variables VariablesFacts.

Section More.

Variable funcs : func_id → option loc → store → result pyvalue * store.

(** The state of an owned variable is a plain slot: an assignment stores
    any value, also one a registered validator rejects, the value reads
    back, the validators stay as they were, and no other object of the
    store changes. *)
Theorem owned_state_stored_unvalidated (w : world) (l : loc) (v : Variable_)
    (value : pyvalue) :
  vars (w_store w) !! l = Some (OVariable v) →
  ∃ w',
    set_state l value w = (Ok tt, w') ∧
    get_state funcs l w' = (Ok value, w') ∧
    (run_validators l value w').1 = (run_validators l value w).1 ∧
    w_calls w' = w_calls w ∧
    procs (w_store w') = procs (w_store w) ∧
    ∀ l', l' ≠ l → vars (w_store w') !! l' = vars (w_store w) !! l'.
Proof.
  intros Hl. eexists. split.
  { unfold set_state. rewrite recursion_limit_S.
    by apply set_state_variable. }
  split_and!.
  - apply (get_state_variable funcs _ l (set__state v value)).
    cbn. by rewrite lookup_insert_eq.
  - unfold run_validators. cbn. rewrite lookup_insert_eq. by rewrite Hl.
  - done.
  - done.
  - intros l' Hne. cbn. by rewrite lookup_insert_ne.
Qed.

(** A foreign descriptor whose target is again a foreign descriptor can
    be written but not read: the setter assigns to the [state] property
    of the target and so follows the chain to the owned variable, while
    the getter reads the attribute [_state] of the target, which a
    foreign descriptor does not have. *)
Theorem foreign_chain_write_only (w : world) (l1 l2 l3 : loc)
    (f1 f2 : ForeignVariable) (v : Variable_) (value : pyvalue) :
  vars (w_store w) !! l1 = Some (OForeign f1) →
  ref_var f1 (w_store w) = Ok l2 →
  vars (w_store w) !! l2 = Some (OForeign f2) →
  ref_var f2 (w_store w) = Ok l3 →
  vars (w_store w) !! l3 = Some (OVariable v) →
  let w' :=
    with_store (set_var l3 (OVariable (set__state v value)) (w_store w)) w in
  get_state funcs l1 w = (Raise (AttributeError "_state"), w) ∧
  set_state l1 value w = (Ok tt, w') ∧
  get_state funcs l3 w' = (Ok value, w') ∧
  get_state funcs l2 w' = (Ok value, w') ∧
  get_state funcs l1 w' = (Raise (AttributeError "_state"), w').
Proof.
  intros H1 Hr1 H2 Hr2 H3 w'.
  assert (Hne13 : l3 ≠ l1) by (intros ->; congruence).
  assert (Hne23 : l3 ≠ l2) by (intros ->; congruence).
  assert (H1' : vars (w_store w') !! l1 = Some (OForeign f1)).
  { subst w'. cbn. by rewrite lookup_insert_ne. }
  assert (H2' : vars (w_store w') !! l2 = Some (OForeign f2)).
  { subst w'. cbn. by rewrite lookup_insert_ne. }
  assert (H3' : vars (w_store w') !! l3
                = Some (OVariable (set__state v value))).
  { subst w'. cbn. by rewrite lookup_insert_eq. }
  split_and!.
  - unfold get_state, getattr__state. by rewrite H1, Hr1, H2.
  - unfold set_state. change recursion_limit with (S (S (S 997))).
    rewrite (set_state_foreign w l1 l2 f1 value _ H1 Hr1).
    rewrite (set_state_foreign w l2 l3 f2 value _ H2 Hr2).
    by apply set_state_variable.
  - by rewrite (get_state_variable funcs w' l3 _ H3').
  - by rewrite (get_state_foreign funcs w' l2 l3 f2 _ H2' Hr2 H3').
  - unfold get_state, getattr__state.
    rewrite H1'. change (ref_var f1 (w_store w')) with (ref_var f1 (w_store w)).
    by rewrite Hr1, H2'.
Qed.

(** A foreign descriptor whose target is a diagnostic can be neither
    read nor written: both accesses raise [AttributeError] and leave the
    world as it is, so the function of the diagnostic is not called. *)
Theorem foreign_to_diagnostic_fails (w : world) (lf ld : loc)
    (f : ForeignVariable) (d : DiagnosticVariable) (value : pyvalue) :
  vars (w_store w) !! lf = Some (OForeign f) →
  ref_var f (w_store w) = Ok ld →
  vars (w_store w) !! ld = Some (ODiagnostic d) →
  get_state funcs lf w = (Raise (AttributeError "_state"), w) ∧
  set_state lf value w = (Raise (AttributeError "state"), w).
Proof.
  intros Hf Hr Hd. split.
  - unfold get_state, getattr__state. by rewrite Hf, Hr, Hd.
  - unfold set_state. rewrite recursion_limit_S.
    rewrite (set_state_foreign w lf ld f value _ Hf Hr).
    cbn [set_state_depth]. by rewrite Hd.
Qed.

(** When the process a foreign descriptor resolves through has no
    variable of the name [var_name], every state access raises a
    [KeyError] for that name and changes nothing; this holds for a bound
    descriptor and for one that falls back on its class. *)
Theorem foreign_missing_variable (w : world) (lf p : loc)
    (f : ForeignVariable) (po : process_obj) (value : pyvalue) :
  vars (w_store w) !! lf = Some (OForeign f) →
  (_other_process_obj f = Some p ∨
   _other_process_obj f = None ∧ other_process f = ProcessObj p) →
  procs (w_store w) !! p = Some po →
  _variables po !! var_name f = None →
  get_state funcs lf w = (Raise (KeyError (KeyStr (var_name f))), w) ∧
  set_state lf value w = (Raise (KeyError (KeyStr (var_name f))), w).
Proof.
  intros Hf Hp Hpo Hmiss.
  assert (Hr : ref_var f (w_store w)
               = Raise (KeyError (KeyStr (var_name f)))).
  { unfold ref_var. destruct Hp as [-> | [-> ->]]; by rewrite Hpo, Hmiss. }
  split.
  - unfold get_state. by rewrite Hf, Hr.
  - unfold set_state. rewrite recursion_limit_S. cbn [set_state_depth].
    by rewrite Hf, Hr.
Qed.

(** Binding a foreign descriptor to a process object redirects it: once
    [assign_other_process_obj] has run, state accesses go to the variable
    of that process object, whatever [other_process] names, and the
    variable the descriptor resolved to before keeps its state. *)
Theorem binding_redirects_foreign (w : world) (lf p lp lc : loc)
    (f : ForeignVariable) (pp : process_obj) (vp vc : Variable_)
    (value : pyvalue) :
  vars (w_store w) !! lf = Some (OForeign f) →
  ref_var f (w_store w) = Ok lc →
  vars (w_store w) !! lc = Some (OVariable vc) →
  procs (w_store w) !! p = Some pp →
  _variables pp !! var_name f = Some lp →
  vars (w_store w) !! lp = Some (OVariable vp) →
  lp ≠ lc →
  let bound :=
    with_store (set_var lf (OForeign (assign_other_process_obj f p))
                        (w_store w)) w in
  get_state funcs lf bound = (Ok (_state vp), bound) ∧
  ∃ w',
    set_state lf value bound = (Ok tt, w') ∧
    get_state funcs lp w' = (Ok value, w') ∧
    get_state funcs lc w' = (Ok (_state vc), w').
Proof.
  intros Hf Hr Hc Hp Hpp Hlp Hne bound.
  assert (Hlf_p : lp ≠ lf) by (intros ->; congruence).
  assert (Hlf_c : lc ≠ lf) by (intros ->; congruence).
  assert (Hb : vars (w_store bound) !! lf
               = Some (OForeign (assign_other_process_obj f p))).
  { subst bound. cbn. by rewrite lookup_insert_eq. }
  assert (Hbr : ref_var (assign_other_process_obj f p) (w_store bound)
                = Ok lp).
  { unfold ref_var. cbn. by rewrite Hp, Hpp. }
  assert (Hbp : vars (w_store bound) !! lp = Some (OVariable vp)).
  { subst bound. cbn. by rewrite lookup_insert_ne. }
  assert (Hbc : vars (w_store bound) !! lc = Some (OVariable vc)).
  { subst bound. cbn. by rewrite lookup_insert_ne. }
  split.
  - by apply (get_state_foreign funcs bound lf lp
                (assign_other_process_obj f p) vp).
  - eexists. split.
    { by apply (set_state_through_foreign bound lf lp
                  (assign_other_process_obj f p) vp). }
    split.
    + apply (get_state_variable funcs _ lp (set__state vp value)).
      cbn. by rewrite lookup_insert_eq.
    + apply (get_state_variable funcs _ lc vc).
      cbn. rewrite lookup_insert_ne by done. exact Hbc.
Qed.

(** Foreign descriptors that refer to one another in a circle cannot be
    written: when every descriptor reachable from a foreign descriptor
    is again a foreign descriptor, the nested setters never reach a
    variable, and the assignment ends in a [RecursionError] with the
    world as it was. *)
Theorem foreign_cycle_recursion_error (w : world) (S : loc → Prop)
    (l : loc) (value : pyvalue) :
  (∀ l0, S l0 →
     ∃ f t, vars (w_store w) !! l0 = Some (OForeign f) ∧
            ref_var f (w_store w) = Ok t ∧ S t) →
  S l →
  set_state l value w = (Raise RecursionError, w).
Proof.
  intros Hclosed. unfold set_state. generalize recursion_limit.
  intros depth. revert l. induction depth as [|depth IH]; intros l Hl.
  - done.
  - destruct (Hclosed l Hl) as (f & t & Hf & Hr & Ht).
    rewrite (set_state_foreign w l t f value depth Hf Hr). by apply IH.
Qed.

End More.

(** Closed instances on the world of the examples, extended by a second
    foreign descriptor at 23 that refers to the one at 22 through the
    process 3, by one at 24 that refers to the diagnostic, by one at 25
    whose variable name the class does not have, and by one at 26 that
    refers to itself. *)
Definition chain_store : store :=
  {| vars := <[23%positive := OForeign
                 (ForeignVariable_init (ProcessObj 3%positive) "y" false)]>
             (<[24%positive := OForeign
                 (ForeignVariable_init (ProcessObj 1%positive) "diag" false)]>
             (<[25%positive := OForeign
                 (ForeignVariable_init (ProcessObj 1%positive) "z" false)]>
             (<[26%positive := OForeign
                 (ForeignVariable_init (ProcessObj 3%positive) "me" false)]>
                (vars example_store))));
     procs := <[3%positive :=
                  {| _variables := <["y" := 22%positive]>
                                   (<["me" := 26%positive]> ∅);
                     p_class := None; _name := None |}]>
              (procs example_store) |}.

Definition chain_world : world := {| w_store := chain_store; w_calls := [] |}.

Definition five : pyvalue := PyScalar (DInt 64) 5.

Lemma owned_state_stored_unvalidated_witness :
  ∃ w',
    set_state 10 matrix chain_world = (Ok tt, w') ∧
    get_state no_funcs 10 w' = (Ok matrix, w') ∧
    (run_validators 10 matrix w').1
      = Raise (ValidationError "invalid").
Proof.
  destruct (owned_state_stored_unvalidated no_funcs chain_world 10%positive
              x_template matrix) as (w' & Hset & Hget & Hval & _);
    [reflexivity |].
  exists w'. split_and!; [done | done |]. by rewrite Hval.
Defined.

Lemma foreign_chain_write_only_witness :
  get_state no_funcs 23 chain_world
    = (Raise (AttributeError "_state"), chain_world) ∧
  (set_state 23 five chain_world).1 = Ok tt.
Proof.
  destruct (foreign_chain_write_only no_funcs chain_world 23%positive
              22%positive 11%positive
              (ForeignVariable_init (ProcessObj 3%positive) "y" false)
              f_bound x_instance five)
    as (Hget & Hset & _); try reflexivity.
  split; [done |]. by rewrite Hset.
Defined.

Lemma foreign_to_diagnostic_fails_witness :
  get_state no_funcs 24 chain_world
    = (Raise (AttributeError "_state"), chain_world) ∧
  set_state 24 five chain_world
    = (Raise (AttributeError "state"), chain_world).
Proof.
  apply (foreign_to_diagnostic_fails no_funcs chain_world 24%positive
           30%positive
           (ForeignVariable_init (ProcessObj 1%positive) "diag" false) diag);
    reflexivity.
Defined.

Lemma foreign_missing_variable_witness :
  get_state no_funcs 25 chain_world
    = (Raise (KeyError (KeyStr "z")), chain_world) ∧
  set_state 25 five chain_world
    = (Raise (KeyError (KeyStr "z")), chain_world).
Proof.
  eapply (foreign_missing_variable no_funcs chain_world 25%positive
            1%positive
            (ForeignVariable_init (ProcessObj 1%positive) "z" false)).
  - reflexivity.
  - right. split; reflexivity.
  - reflexivity.
  - reflexivity.
Defined.

Lemma binding_redirects_foreign_witness :
  ∃ w',
    set_state 20 five
       (with_store
          (set_var 20 (OForeign (assign_other_process_obj f_unbound 2))
                   chain_store) chain_world) = (Ok tt, w') ∧
    get_state no_funcs 11 w' = (Ok five, w') ∧
    get_state no_funcs 10 w' = (Ok (PyScalar (DInt 64) 7), w').
Proof.
  destruct (binding_redirects_foreign no_funcs chain_world 20%positive
              2%positive 11%positive 10%positive f_unbound
              {| _variables := <["x" := 11%positive]>
                               (<["diag" := 30%positive]> ∅);
                 p_class := Some 1%positive; _name := None |}
              x_instance x_template five)
    as (_ & w' & Hset & Hp & Hc); try reflexivity; [done |].
  exists w'. split_and!; [exact Hset | done | done].
Defined.

Lemma foreign_cycle_recursion_error_witness :
  set_state 26 five chain_world = (Raise RecursionError, chain_world).
Proof.
  apply (foreign_cycle_recursion_error chain_world (λ l, l = 26%positive)).
  - intros l0 ->.
    exists (ForeignVariable_init (ProcessObj 3%positive) "me" false),
           26%positive.
    split_and!; reflexivity.
  - reflexivity.
Defined.

End VariablesMore.

(** * Further properties of the zarr output store *)

Module StoresMore.

Import Stores StoresFacts.

(** *** Failures of [_create_zarr_dataset] *)

(** [_create_zarr_dataset] fails before it touches the group when the
    variable is not in [var_info] ([KeyError]), when the process object
    lacks the attribute ([AttributeError]), when the clock of the
    variable has no size ([KeyError]) and when an array of the name
    exists ([ContainsArrayError]); in each case the store is left as it
    was. *)
Theorem create_zarr_dataset_early_errors (st : ZarrOutputStore)
    (vk : var_key) (name_arg : option string) :
  (var_info st !! vk = None →
   _create_zarr_dataset vk name_arg st
   = (Raise (KeyError (key_of_var vk)), st)) ∧
  (∀ vi, var_info st !! vk = Some vi →
     model st !! vi_value_getter vi = None →
     _create_zarr_dataset vk name_arg st
     = (Raise (AttributeError (vi_value_getter vi).2), st)) ∧
  (∀ vi value c,
     var_info st !! vk = Some vi →
     model st !! vi_value_getter vi = Some value →
     vi_clock vi = Some c → clock_sizes st !! c = None →
     _create_zarr_dataset vk name_arg st = (Raise (KeyError (KeyStr c)), st)) ∧
  (∀ vi value shape,
     var_info st !! vk = Some vi →
     model st !! vi_value_getter vi = Some value →
     storage_shape (vi_clock vi) (clock_sizes st) value = Some shape →
     is_Some (zgroup st !! default (vi_name vi) name_arg) →
     _create_zarr_dataset vk name_arg st
     = (Raise (ContainsArrayError (default (vi_name vi) name_arg)), st)).
Proof.
  split_and!.
  - intros Hvi. unfold _create_zarr_dataset.
    by rewrite bind_get_var_info, Hvi.
  - intros vi Hvi Hval. unfold _create_zarr_dataset.
    rewrite bind_get_var_info, Hvi.
    unfold bind, value_getter, lift. by rewrite Hval.
  - intros vi value c Hvi Hval Hc Hsize. unfold _create_zarr_dataset.
    rewrite bind_get_var_info, Hvi.
    unfold bind, value_getter, lift. rewrite Hval, Hc.
    unfold get_clock_size, lift. by rewrite Hsize.
  - intros vi value shape Hvi Hval Hshape [za Hza].
    unfold _create_zarr_dataset. rewrite bind_get_var_info, Hvi.
    unfold bind, value_getter, lift. rewrite Hval.
    unfold storage_shape in Hshape.
    destruct (vi_clock vi) as [c|].
    + unfold get_clock_size, lift, ret.
      destruct (clock_sizes st !! c) as [n|]; [| done].
      unfold on_zgroup, create_dataset. by rewrite Hza.
    + unfold ret, on_zgroup, create_dataset. by rewrite Hza.
Qed.

(** For a complex value the creation of the array fails in zarr, and the
    store is left as it was. *)
Lemma create_zarr_dataset_complex (st : ZarrOutputStore) (vk : var_key)
    (name_arg : option string) (vi : var_info_entry) (value : npvalue)
    (shape : list nat) :
  var_info st !! vk = Some vi →
  model st !! vi_value_getter vi = Some value →
  storage_shape (vi_clock vi) (clock_sizes st) value = Some shape →
  zgroup st !! default (vi_name vi) name_arg = None →
  dtype_kind (nd_dtype (np_asarray value)) = "c" →
  _create_zarr_dataset vk name_arg st
  = (Raise (ValueError "fill_value is not valid for dtype"), st).
Proof.
  intros Hvi Hval Hshape Hfree Hdt.
  unfold _create_zarr_dataset. rewrite bind_get_var_info, Hvi.
  unfold bind, value_getter, lift. rewrite Hval.
  assert (Hcreate : ∀ sh,
            create_dataset (default (vi_name vi) name_arg) sh
              (nd_dtype (np_asarray value))
              (default_fill_value_from_dtype (nd_dtype (np_asarray value)))
              (zgroup st)
            = Raise (ValueError "fill_value is not valid for dtype")).
  { intros sh. unfold create_dataset. rewrite Hfree, valid_fill_default.
    rewrite bool_decide_eq_false_2; [done |]. by intros Hne. }
  unfold storage_shape in Hshape. destruct (vi_clock vi) as [c|].
  - unfold get_clock_size, lift, ret.
    destruct (clock_sizes st !! c) as [n|]; [| done].
    unfold on_zgroup. by rewrite Hcreate.
  - unfold ret, on_zgroup. by rewrite Hcreate.
Qed.

(** When no declared dims tuple has the length of the value's number of
    dimensions, the [ValueError] comes after the array was created (which
    takes a value that is not complex): the group then holds an array of
    the name, without attributes and filled with the fill value, and a
    second call for the variable fails with [ContainsArrayError]
    instead. *)
Theorem dims_error_leaves_blank_array (st : ZarrOutputStore) (vk : var_key)
    (name_arg : option string) (vi : var_info_entry) (value : npvalue)
    (shape : list nat) :
  var_info st !! vk = Some vi →
  model st !! vi_value_getter vi = Some value →
  dtype_kind (nd_dtype (np_asarray value)) ≠ "c" →
  storage_shape (vi_clock vi) (clock_sizes st) value = Some shape →
  zgroup st !! default (vi_name vi) name_arg = None →
  (∀ d, d ∈ md_dims (vi_obj vi) → length d ≠ ndim (np_asarray value)) →
  let name := default (vi_name vi) name_arg in
  ∃ msg st',
    _create_zarr_dataset vk name_arg st = (Raise (ValueError msg), st') ∧
    zgroup st'
    = <[name := blank_array shape (nd_dtype (np_asarray value))]>
        (zgroup st) ∧
    consolidated st' = consolidated st ∧
    _create_zarr_dataset vk name_arg st'
    = (Raise (ContainsArrayError name), st').
Proof.
  intros Hvi Hval Hdt Hshape Hfree Hdims name.
  pose proof (create_zarr_dataset_step st vk name_arg vi value shape
                Hvi Hval Hdt Hshape Hfree) as Hstep.
  cbv zeta in Hstep. apply find_dim_labels_None in Hdims.
  rewrite Hdims in Hstep. eexists _, _. split; [exact Hstep |].
  split_and!; [done | done |].
  destruct (create_zarr_dataset_early_errors
              (set_zgroup
                 (<[name := blank_array shape (nd_dtype (np_asarray value))]>
                    (zgroup st)) st) vk name_arg) as (_ & _ & _ & Hexists).
  apply (Hexists vi value shape); [done | done | done |].
  cbn. fold name. rewrite lookup_insert_eq. eauto.
Qed.

(** *** What the writes never undo *)

Definition same_meta (za za' : zarray) : Prop :=
  z_shape za' = z_shape za ∧ z_dtype za' = z_dtype za ∧
  z_fill za' = z_fill za ∧ z_attrs za' = z_attrs za.

(** From [st] to [st'] the model, the description of the variables, the
    clocks and the save steps are the same, no counter went down, and
    every array of [st] is still there with its shape, dtype, fill value
    and attributes. *)
Definition steady (st st' : ZarrOutputStore) : Prop :=
  model st' = model st ∧ var_info st' = var_info st ∧
  clock_sizes st' = clock_sizes st ∧ output_vars st' = output_vars st ∧
  output_save_steps st' = output_save_steps st ∧
  in_memory st' = in_memory st ∧
  (∀ c k, clock_incs st !! c = Some k →
          ∃ k', clock_incs st' !! c = Some k' ∧ k ≤ k') ∧
  (∀ name za, zgroup st !! name = Some za →
              ∃ za', zgroup st' !! name = Some za' ∧ same_meta za za').

Lemma steady_refl (st : ZarrOutputStore) : steady st st.
Proof.
  split_and!; try done.
  - intros c k Hk. exists k. split; [done | lia].
  - intros name za Hza. exists za. by split_and!.
Qed.

Lemma steady_trans (st1 st2 st3 : ZarrOutputStore) :
  steady st1 st2 → steady st2 st3 → steady st1 st3.
Proof.
  intros (Hm1 & Hi1 & Hs1 & Ho1 & Hv1 & Hy1 & Hc1 & Hz1)
         (Hm2 & Hi2 & Hs2 & Ho2 & Hv2 & Hy2 & Hc2 & Hz2).
  split_and!; try congruence.
  - intros c k Hk. destruct (Hc1 c k Hk) as (k1 & Hk1 & Hle1).
    destruct (Hc2 c k1 Hk1) as (k2 & Hk2 & Hle2).
    exists k2. split; [done | lia].
  - intros name za Hza. destruct (Hz1 name za Hza) as (za1 & Hza1 & Hme1).
    destruct (Hz2 name za1 Hza1) as (za2 & Hza2 & Hme2).
    exists za2. split; [done |].
    destruct Hme1 as (? & ? & ? & ?), Hme2 as (? & ? & ? & ?).
    split_and!; congruence.
Qed.

(** A computation every run of which is steady, however it ends. *)
Definition steadily {A} (m : M A) : Prop := ∀ st, steady st (m st).2.

Lemma steadily_ret {A} (a : A) : steadily (ret a).
Proof. intros st. apply steady_refl. Qed.

Lemma steadily_lift {A} (f : ZarrOutputStore → result A) : steadily (lift f).
Proof. intros st. apply steady_refl. Qed.

Lemma steadily_bind {A B} (c : M A) (k : A → M B) :
  steadily c → (∀ a, steadily (k a)) → steadily (bind c k).
Proof.
  intros Hc Hk st. unfold bind. specialize (Hc st).
  destruct (c st) as [[a|e] st1]; [| done].
  cbn in Hc. eapply steady_trans; [exact Hc |]. apply Hk.
Qed.

Lemma steadily_for_each {A} (l : list A) (body : A → M unit) :
  (∀ x, steadily (body x)) → steadily (for_each l body).
Proof.
  intros Hbody. induction l as [|x l IH]; [apply steadily_ret |].
  cbn [for_each]. apply steadily_bind; [apply Hbody | by intros _].
Qed.

Lemma steady_set_zgroup (st : ZarrOutputStore) (g : gmap string zarray) :
  (∀ name za, zgroup st !! name = Some za →
              ∃ za', g !! name = Some za' ∧ same_meta za za') →
  steady st (set_zgroup g st).
Proof.
  intros Hg. split_and!; try done.
  intros c k Hk. exists k. split; [done | lia].
Qed.

Lemma steadily_setitem (op : gmap string zarray → result (gmap string zarray)) :
  (∀ g g', op g = Ok g' →
     ∀ name za, g !! name = Some za →
                ∃ za', g' !! name = Some za' ∧ same_meta za za') →
  steadily (on_zgroup op).
Proof.
  intros Hop st. unfold on_zgroup.
  destruct (op (zgroup st)) as [g'|e] eqn:Hg; [| apply steady_refl].
  apply steady_set_zgroup. by apply Hop.
Qed.

Lemma insert_with_data_meta (g : gmap string zarray) (zkey : string)
    (za0 : zarray) (d : list cell) :
  g !! zkey = Some za0 →
  ∀ name za, g !! name = Some za →
    ∃ za', <[zkey := with_data za0 d]> g !! name = Some za' ∧
           same_meta za za'.
Proof.
  intros H0 name za Hza. destruct (decide (name = zkey)) as [-> | Hne].
  - rewrite lookup_insert_eq. eexists. split; [done |].
    rewrite H0 in Hza. injection Hza as <-. by split_and!.
  - rewrite lookup_insert_ne by done. exists za. by split_and!.
Qed.

Lemma steadily_write_var (c : clock) (k : nat) (vk : var_key) :
  steadily (write_var c k vk).
Proof.
  unfold write_var. apply steadily_bind; [apply steadily_lift |].
  intros vi. apply steadily_bind; [apply steadily_lift |]. intros value.
  destruct c.
  - apply steadily_setitem. intros g g' Hop. unfold setitem_index in Hop.
    destruct (g !! vi_name vi) as [za0|] eqn:H0; [| done].
    destruct (z_shape za0); [done |]. case_decide; [| done].
    destruct (cells_for _ _); [| done]. injection Hop as <-.
    by apply insert_with_data_meta.
  - apply steadily_setitem. intros g g' Hop. unfold setitem_all in Hop.
    destruct (g !! vi_name vi) as [za0|] eqn:H0; [| done].
    destruct (z_shape za0); [done |].
    destruct (cells_for _ _); [| done]. injection Hop as <-.
    by apply insert_with_data_meta.
Qed.

Lemma steadily_create (vk : var_key) (name_arg : option string) :
  steadily (_create_zarr_dataset vk name_arg).
Proof.
  intros st.
  destruct (create_zarr_dataset_early_errors st vk name_arg)
    as (Hnone & Hattr & Hsize & Hexists).
  destruct (var_info st !! vk) as [vi|] eqn:Hvi.
  2:{ rewrite Hnone by done. apply steady_refl. }
  destruct (model st !! vi_value_getter vi) as [value|] eqn:Hval.
  2:{ rewrite (Hattr vi) by done. apply steady_refl. }
  destruct (storage_shape (vi_clock vi) (clock_sizes st) value)
    as [shape|] eqn:Hshape.
  2:{ unfold storage_shape in Hshape.
      destruct (vi_clock vi) as [c|] eqn:Hc; [| done].
      destruct (clock_sizes st !! c) eqn:Hn; [done |].
      rewrite (Hsize vi value c) by done. apply steady_refl. }
  destruct (zgroup st !! default (vi_name vi) name_arg) as [za0|] eqn:Hza.
  { rewrite (Hexists vi value shape) by eauto. apply steady_refl. }
  destruct (decide (dtype_kind (nd_dtype (np_asarray value)) = "c"))
    as [Hdt | Hdt].
  { rewrite (create_zarr_dataset_complex st vk name_arg vi value shape)
      by done.
    apply steady_refl. }
  pose proof (create_zarr_dataset_step st vk name_arg vi value shape
                Hvi Hval Hdt Hshape Hza) as Hstep.
  cbv zeta in Hstep. rewrite Hstep.
  assert (Hkeep : ∀ zb name za,
            zgroup st !! name = Some za →
            ∃ za', <[default (vi_name vi) name_arg := zb]> (zgroup st)
                     !! name = Some za' ∧ same_meta za za').
  { intros zb name za Hname. exists za. split; [| by split_and!].
    rewrite lookup_insert_ne; [done |]. intros <-. congruence. }
  destruct (find_dim_labels _ _).
  - cbn. split_and!; try done.
    + intros c k Hk. exists k. split; [done | lia].
    + intros name za Hname. by apply Hkeep.
  - cbn. apply steady_set_zgroup. intros name za Hname. by apply Hkeep.
Qed.

Lemma steadily_write_clock_vars (istep : Z) (save_istep : gmap string bool)
    (item : clock * list var_key) :
  steadily (write_clock_vars istep save_istep item).
Proof.
  destruct item as [c vks]. unfold write_clock_vars.
  destruct (bool_decide (c = None) && bool_decide (istep ≠ (-1)%Z));
    [apply steadily_ret |].
  destruct (negb _); [apply steadily_ret |].
  intros st. unfold bind at 1. unfold get_clock_inc, lift.
  destruct (clock_incs st !! c) as [k|] eqn:Hk; [| apply steady_refl].
  assert (Hbody : ∀ st1, steady st st1 →
            steady st (set_clock_incs (<[c := k + 1]> (clock_incs st1)) st1)).
  { intros st1 (Hm & Hi & Hs & Ho & Hv & Hy & Hc & Hz).
    split_and!; try done.
    intros c' k0 Hk0. cbn. destruct (decide (c' = c)) as [-> | Hne].
    - rewrite lookup_insert_eq. exists (k + 1). split; [done |].
      rewrite Hk in Hk0. injection Hk0 as <-. lia.
    - rewrite lookup_insert_ne by done. by apply Hc. }
  unfold bind at 1.
  assert (H1 : steady st
            ((if decide (k = 0)
              then for_each vks (λ vk, _create_zarr_dataset vk None)
              else ret ()) st).2).
  { destruct (decide (k = 0)); [| apply steady_refl].
    apply steadily_for_each. intros vk. apply steadily_create. }
  destruct (decide (k = 0)) as [Hk0 | Hk0].
  - destruct (for_each vks (λ vk, _create_zarr_dataset vk None) st)
      as [[[]|e] st1]; [| exact H1].
    cbn in H1. unfold bind at 1.
    pose proof (steadily_for_each vks (write_var c k)
                  (steadily_write_var c k) st1) as H2.
    destruct (for_each vks (write_var c k) st1) as [[[]|e] st2]; cbn in H2.
    + cbn. apply Hbody. by eapply steady_trans.
    + cbn. by eapply steady_trans.
  - cbn [ret fst snd]. unfold bind at 1.
    pose proof (steadily_for_each vks (write_var c k)
                  (steadily_write_var c k) st) as H2.
    destruct (for_each vks (write_var c k) st) as [[[]|e] st2]; cbn in H2.
    + cbn. by apply Hbody.
    + done.
Qed.

Lemma steadily_write_output_vars (istep : Z) :
  steadily (write_output_vars istep).
Proof.
  unfold write_output_vars.
  apply steadily_bind; [apply steadily_lift |]. intros save_istep.
  apply steadily_bind; [apply steadily_lift |]. intros items.
  apply steadily_for_each. intros item. apply steadily_write_clock_vars.
Qed.

Lemma steadily_write_index_vars (index_vars : list var_key) :
  steadily (write_index_vars index_vars).
Proof.
  unfold write_index_vars. apply steadily_for_each. intros vk.
  apply steadily_bind; [apply steadily_create |]. intros _.
  apply steadily_bind; [apply steadily_lift |]. intros vi.
  apply steadily_bind; [apply steadily_lift |]. intros value.
  apply steadily_setitem. intros g g' Hop. unfold setitem_all in Hop.
  destruct (g !! vk.2) as [za0|] eqn:H0; [| done].
  destruct (z_shape za0); [done |].
  destruct (cells_for _ _); [| done]. injection Hop as <-.
  by apply insert_with_data_meta.
Qed.

(** However [write_output_vars] and [write_index_vars] end, normally or
    with an exception, every array that was in the group is still there
    with the shape, dtype, fill value and attributes it had: existing
    arrays are never removed, re-created or relabelled, only their
    elements are written. *)
Theorem writes_keep_existing_arrays (st : ZarrOutputStore) (istep : Z)
    (index_vars : list var_key) (name : string) (za : zarray) :
  zgroup st !! name = Some za →
  (∃ za', zgroup (write_output_vars istep st).2 !! name = Some za' ∧
          z_shape za' = z_shape za ∧ z_dtype za' = z_dtype za ∧
          z_fill za' = z_fill za ∧ z_attrs za' = z_attrs za) ∧
  (∃ za', zgroup (write_index_vars index_vars st).2 !! name = Some za' ∧
          z_shape za' = z_shape za ∧ z_dtype za' = z_dtype za ∧
          z_fill za' = z_fill za ∧ z_attrs za' = z_attrs za).
Proof.
  intros Hza. split.
  - destruct (steadily_write_output_vars istep st)
      as (_ & _ & _ & _ & _ & _ & _ & Hz). by apply Hz.
  - destruct (steadily_write_index_vars index_vars st)
      as (_ & _ & _ & _ & _ & _ & _ & Hz). by apply Hz.
Qed.

(** However [write_output_vars] ends, it has not changed the values of
    the model, the description of the variables, the sizes of the clocks,
    the output variables or the save steps, and no counter is lower than
    it was. *)
Theorem write_output_vars_reads_its_inputs (st : ZarrOutputStore)
    (istep : Z) :
  let st' := (write_output_vars istep st).2 in
  model st' = model st ∧ var_info st' = var_info st ∧
  clock_sizes st' = clock_sizes st ∧ output_vars st' = output_vars st ∧
  output_save_steps st' = output_save_steps st ∧
  ∀ c k, clock_incs st !! c = Some k →
         ∃ k', clock_incs st' !! c = Some k' ∧ k ≤ k'.
Proof.
  destruct (steadily_write_output_vars istep st)
    as (Hm & Hi & Hs & Ho & Hv & _ & Hc & _).
  by split_and!.
Qed.

(** *** Step indices *)

Lemma for_each_ext {A} (l : list A) (f g : A → M unit)
    (st : ZarrOutputStore) :
  (∀ x st0, x ∈ l → f x st0 = g x st0) →
  for_each l f st = for_each l g st.
Proof.
  revert st. induction l as [|x l IH]; intros st Hext; [done |].
  cbn [for_each]. unfold bind. rewrite (Hext x st) by by left.
  destruct (g x st) as [[[]|e] st1]; [| done].
  apply IH. intros y st0 Hy. apply Hext. by right.
Qed.

Lemma isel_negative (ss : save_steps) (istep : Z) :
  (- Z.of_nat (ss_nsteps ss) ≤ istep < 0)%Z →
  isel ss istep = isel ss (istep + Z.of_nat (ss_nsteps ss)).
Proof.
  intros Hrange. unfold isel.
  rewrite decide_True by lia. rewrite decide_True by lia.
  replace ((istep + Z.of_nat (ss_nsteps ss))
             `mod` Z.of_nat (ss_nsteps ss))%Z
    with (istep `mod` Z.of_nat (ss_nsteps ss))%Z; [done |].
  rewrite <- (Z_mod_plus_full istep 1 (Z.of_nat (ss_nsteps ss))).
  f_equal. lia.
Qed.

(** Step indices follow Python's indexing of the master clock.  An index
    outside [-n, n), for [n] steps, raises [IndexError] and leaves the
    store as it is.  A negative index [istep] in range does what the
    index [istep + n] does; the one exception is -1 when there are output
    variables without clock, since these are written for the index -1
    only. *)
Theorem step_index_like_python (st : ZarrOutputStore) (istep : Z) :
  let n := Z.of_nat (ss_nsteps (output_save_steps st)) in
  (¬ (- n ≤ istep < n)%Z →
   write_output_vars istep st = (Raise IndexError, st)) ∧
  ((- n ≤ istep < 0)%Z →
   (istep = (-1)%Z → None ∉ (output_vars st).*1) →
   write_output_vars istep st = write_output_vars (istep + n) st).
Proof.
  intros n. split.
  - intros Hout. unfold write_output_vars, bind, lift, isel.
    fold n. by rewrite decide_False.
  - intros Hrange Hlast. unfold write_output_vars, bind, lift.
    rewrite (isel_negative _ istep Hrange). fold n.
    destruct (isel (output_save_steps st) (istep + n)) as [save|]; [| done].
    apply for_each_ext. intros [c vks] st0 Hin. unfold write_clock_vars.
    destruct c as [name|]; [done |].
    assert (Hne : istep ≠ (-1)%Z).
    { intros Heq. apply (Hlast Heq).
      by apply (list_elem_of_fmap_2 fst) in Hin. }
    rewrite (bool_decide_eq_true_2 (istep ≠ (-1)%Z)) by done.
    rewrite (bool_decide_eq_true_2 (istep + n ≠ (-1)%Z)%Z) by lia.
    done.
Qed.

(** A step at which no clock saves is a no-op: when the index is not -1
    or no output variable is without clock, and the save flag of every
    clock of the output variables is false at the step, the call returns
    normally and the store is as it was. *)
Theorem no_save_step_is_noop (st : ZarrOutputStore) (istep : Z)
    (save_istep : gmap string bool) :
  isel (output_save_steps st) istep = Ok save_istep →
  (istep ≠ (-1)%Z ∨ None ∉ (output_vars st).*1) →
  (∀ name vks, (Some name, vks) ∈ output_vars st →
               save_istep !! name = Some false) →
  write_output_vars istep st = (Ok tt, st).
Proof.
  intros Hsel Hnone Hflags.
  unfold write_output_vars, bind, lift. rewrite Hsel.
  assert (Hall : ∀ items st0,
            (∀ c vks, (c, vks) ∈ items → (c, vks) ∈ output_vars st) →
            for_each items (write_clock_vars istep save_istep) st0
            = (Ok tt, st0)).
  { induction items as [|[c vks] items IH]; intros st0 Hsub; [done |].
    cbn [for_each]. unfold bind.
    rewrite (write_clock_vars_skipped istep save_istep c vks st0).
    - apply IH. intros c' vks' Hin. apply Hsub. by right.
    - unfold skipped. destruct c as [name|].
      + cbn. rewrite (Hflags name vks); [done |]. apply Hsub. by left.
      + destruct Hnone as [Hne | Hnone].
        * by rewrite !bool_decide_eq_true_2.
        * exfalso. apply Hnone.
          apply (list_elem_of_fmap_2 fst (output_vars st) (None, vks)).
          apply Hsub. by left. }
  by apply Hall.
Qed.

(** *** The elements of the other steps *)





(** *** The attributes of a created array *)

(** For a value that is not complex, with a declared number of
    dimensions and no array of its name yet, [_create_zarr_dataset]
    returns normally, and the attributes of the new array are those of
    the variable, together with the dimension labels and the description:
    an entry of the variable's attrs is recorded as it is; [description]
    is recorded for a description that is not empty and is absent for an
    empty one, unless the attrs have an entry of that name; no other key
    is recorded. *)
Theorem created_array_attributes (st : ZarrOutputStore) (vk : var_key)
    (name_arg : option string) (vi : var_info_entry) (value : npvalue)
    (shape : list nat) (dims : list string) :
  var_info st !! vk = Some vi →
  model st !! vi_value_getter vi = Some value →
  dtype_kind (nd_dtype (np_asarray value)) ≠ "c" →
  storage_shape (vi_clock vi) (clock_sizes st) value = Some shape →
  zgroup st !! default (vi_name vi) name_arg = None →
  find_dim_labels (md_dims (vi_obj vi)) (ndim (np_asarray value))
  = Some dims →
  ∃ st' za,
    _create_zarr_dataset vk name_arg st = (Ok tt, st') ∧
    zgroup st' !! default (vi_name vi) name_arg = Some za ∧
    consolidated st' = false ∧
    (∀ key a, md_attrs (vi_obj vi) !! key = Some a →
              z_attrs za !! key = Some a) ∧
    (md_attrs (vi_obj vi) !! "description" = None →
     z_attrs za !! "description"
     = if decide (md_description (vi_obj vi) = "") then None
       else Some (AttrStr (md_description (vi_obj vi)))) ∧
    (∀ key, md_attrs (vi_obj vi) !! key = None →
            key ≠ "description" → key ≠ _DIMENSION_KEY →
            z_attrs za !! key = None).
Proof.
  intros Hvi Hval Hdt Hshape Hfree Hdims.
  pose proof (create_zarr_dataset_step st vk name_arg vi value shape
                Hvi Hval Hdt Hshape Hfree) as Hstep.
  cbv zeta in Hstep. rewrite Hdims in Hstep.
  eexists _, _. split; [exact Hstep |]. cbn. rewrite lookup_insert_eq.
  split; [done |]. split; [done |]. cbn. unfold dataset_attrs. split_and!.
  - intros key a Ha. by apply lookup_union_Some_l.
  - intros Hnone. rewrite lookup_union_r by done.
    destruct (decide (md_description (vi_obj vi) = "")).
    + by rewrite lookup_insert_ne.
    + by rewrite lookup_insert_eq.
  - intros key Hnone Hd Hk. rewrite lookup_union_r by done.
    destruct (decide (md_description (vi_obj vi) = "")).
    + by rewrite lookup_insert_ne.
    + rewrite lookup_insert_ne by done. by rewrite lookup_insert_ne.
Qed.

(** *** [_get_var_info] *)

(** The clock an association list gives to a key. *)
Fixpoint lookup_clock (vk : var_key) (l : list (var_key * clock))
    : option clock :=
  match l with
  | [] => None
  | (k, c) :: rest => if decide (k = vk) then Some c else lookup_clock vk rest
  end.

(** The variable a key stands for, among the declared ones. *)
Definition declared_var (declared : gmap string (gmap string var_metadata))
    (vk : var_key) : option var_metadata :=
  match declared !! vk.1 with
  | Some vars => vars !! vk.2
  | None => None
  end.

Definition info_entry (vk : var_key) (c : clock) (v_obj : var_metadata)
    : var_info_entry :=
  {| vi_clock := c; vi_name := vk.1 +:+ "__" +:+ vk.2; vi_obj := v_obj;
     vi_value_getter := vk |}.

Lemma lookup_clock_update (vk vk' : var_key) (c : clock)
    (l : list (var_key * clock)) :
  lookup_clock vk (update_clock vk' c l)
  = if decide (vk' = vk) then Some c else lookup_clock vk l.
Proof.
  induction l as [|[k0 c0] l IH]; cbn.
  - done.
  - destruct (decide (k0 = vk')) as [-> | Hne]; cbn.
    + by destruct (decide (vk' = vk)).
    + rewrite IH. destruct (decide (k0 = vk)) as [-> | Hk]; [| done].
      by rewrite decide_False.
Qed.

Lemma lookup_clock_None (vk : var_key) (l : list (var_key * clock)) :
  lookup_clock vk l = None ↔ vk ∉ l.*1.
Proof.
  induction l as [|[k0 c0] l IH]; cbn.
  - split; [intros _ Hin; by apply elem_of_nil in Hin | done].
  - rewrite not_elem_of_cons. destruct (decide (k0 = vk)) as [-> | Hne].
    + split; [done | intros [? _]; done].
    + rewrite IH. split; [intros ?; split; [congruence | done] | tauto].
Qed.

Lemma lookup_clock_elem (vk : var_key) (c : clock)
    (l : list (var_key * clock)) :
  NoDup l.*1 → (vk, c) ∈ l → lookup_clock vk l = Some c.
Proof.
  induction l as [|[k0 c0] l IH]; intros Hnd Hin;
    [by apply elem_of_nil in Hin |].
  cbn in *. apply NoDup_cons in Hnd as [Hk0 Hnd].
  apply elem_of_cons in Hin as [Heq | Hin].
  - injection Heq as -> ->. by rewrite decide_True.
  - rewrite decide_False; [by apply IH |]. intros ->. apply Hk0.
    by apply (list_elem_of_fmap_2 fst) in Hin.
Qed.

Lemma update_clock_keys (vk k : var_key) (c : clock)
    (l : list (var_key * clock)) :
  k ∈ (update_clock vk c l).*1 ↔ k = vk ∨ k ∈ l.*1.
Proof.
  induction l as [|[k0 c0] l IH]; cbn.
  - rewrite list_elem_of_singleton. split; [tauto |].
    intros [? | Hin]; [done | by apply elem_of_nil in Hin].
  - destruct (decide (k0 = vk)) as [-> | Hne]; cbn.
    + rewrite !elem_of_cons. tauto.
    + rewrite !elem_of_cons, IH. tauto.
Qed.

Lemma update_clock_NoDup (vk : var_key) (c : clock)
    (l : list (var_key * clock)) :
  NoDup l.*1 → NoDup (update_clock vk c l).*1.
Proof.
  induction l as [|[k0 c0] l IH]; cbn; intros Hnd.
  - apply NoDup_singleton.
  - apply NoDup_cons in Hnd as [Hk0 Hnd].
    destruct (decide (k0 = vk)) as [-> | Hne]; cbn.
    + by apply NoDup_cons.
    + apply NoDup_cons. split; [| by apply IH].
      rewrite update_clock_keys. intros [? | ?]; done.
Qed.

(** The clocks [_get_var_info] works from: the index variables are
    without clock, the other output variables keep the clock of the
    dataset, and no key occurs twice. *)
Lemma var_clocks_of_spec (output_vars : list (var_key * clock))
    (index_vars : list var_key) :
  NoDup (var_clocks_of output_vars index_vars).*1 ∧
  (∀ vk, vk ∈ (var_clocks_of output_vars index_vars).*1
         ↔ vk ∈ output_vars.*1 ∨ vk ∈ index_vars) ∧
  (∀ vk, vk ∈ index_vars →
         lookup_clock vk (var_clocks_of output_vars index_vars) = Some None) ∧
  (∀ vk c, NoDup output_vars.*1 → (vk, c) ∈ output_vars →
           vk ∉ index_vars →
           lookup_clock vk (var_clocks_of output_vars index_vars) = Some c).
Proof.
  unfold var_clocks_of.
  set (f1 := λ (acc : list (var_key * clock)) (kv : var_key * clock),
               update_clock kv.1 kv.2 acc).
  set (f2 := λ (acc : list (var_key * clock)) (vk : var_key),
               update_clock vk None acc).
  assert (H1 : ∀ ov acc,
            NoDup acc.*1 →
            NoDup (foldl f1 acc ov).*1 ∧
            (∀ vk, vk ∈ (foldl f1 acc ov).*1 ↔ vk ∈ acc.*1 ∨ vk ∈ ov.*1) ∧
            (∀ vk, vk ∉ ov.*1 →
                   lookup_clock vk (foldl f1 acc ov) = lookup_clock vk acc) ∧
            (∀ vk c, NoDup ov.*1 → (vk, c) ∈ ov →
                     lookup_clock vk (foldl f1 acc ov) = Some c)).
  { induction ov as [|[k0 c0] ov IH]; intros acc Hacc; cbn [foldl].
    - split_and!; [done | | done |].
      + intros vk. cbn. rewrite elem_of_nil. tauto.
      + intros vk c _ Hin. by apply elem_of_nil in Hin.
    - destruct (IH (f1 acc (k0, c0))) as (Hnd & Hkeys & Hout & Hin).
      { by apply update_clock_NoDup. }
      split_and!; [done | | |].
      + intros vk. rewrite Hkeys. subst f1. cbn.
        rewrite update_clock_keys, elem_of_cons. tauto.
      + intros vk Hvk. cbn in Hvk. apply not_elem_of_cons in Hvk as [Hne Hvk].
        rewrite (Hout vk Hvk). subst f1. cbn.
        rewrite lookup_clock_update. by rewrite decide_False.
      + intros vk c Hnd0 Hvk. cbn in Hnd0.
        apply NoDup_cons in Hnd0 as [Hk0 Hnd0].
        apply elem_of_cons in Hvk as [Heq | Hvk].
        * injection Heq as -> ->. rewrite (Hout k0 Hk0). subst f1. cbn.
          rewrite lookup_clock_update. by rewrite decide_True.
        * by apply Hin. }
  assert (H2 : ∀ iv acc,
            NoDup acc.*1 →
            NoDup (foldl f2 acc iv).*1 ∧
            (∀ vk, vk ∈ (foldl f2 acc iv).*1 ↔ vk ∈ acc.*1 ∨ vk ∈ iv) ∧
            (∀ vk, vk ∈ iv → lookup_clock vk (foldl f2 acc iv) = Some None) ∧
            (∀ vk, vk ∉ iv →
                   lookup_clock vk (foldl f2 acc iv) = lookup_clock vk acc)).
  { induction iv as [|k0 iv IH]; intros acc Hacc; cbn [foldl].
    - split_and!; [done | | | done].
      + intros vk. rewrite elem_of_nil. tauto.
      + intros vk Hin. by apply elem_of_nil in Hin.
    - destruct (IH (f2 acc k0)) as (Hnd & Hkeys & Hin & Hout).
      { by apply update_clock_NoDup. }
      split_and!; [done | | |].
      + intros vk. rewrite Hkeys. subst f2. cbn.
        rewrite update_clock_keys, elem_of_cons. tauto.
      + intros vk Hvk. destruct (decide (vk ∈ iv)) as [Hiv | Hiv];
          [by apply Hin |].
        apply elem_of_cons in Hvk as [-> | Hvk]; [| done].
        rewrite (Hout k0 Hiv). subst f2. cbn.
        rewrite lookup_clock_update. by rewrite decide_True.
      + intros vk Hvk. apply not_elem_of_cons in Hvk as [Hne Hvk].
        rewrite (Hout vk Hvk). subst f2. cbn.
        rewrite lookup_clock_update. by rewrite decide_False. }
  destruct (H1 output_vars []) as (Hnd1 & Hkeys1 & Hout1 & Hin1);
    [apply NoDup_nil_2 |].
  destruct (H2 index_vars (foldl f1 [] output_vars) Hnd1)
    as (Hnd2 & Hkeys2 & Hin2 & Hout2).
  split_and!; [done | | done |].
  - intros vk. rewrite Hkeys2, Hkeys1. cbn. rewrite elem_of_nil. tauto.
  - intros vk c Hnd Hvk Hiv. rewrite (Hout2 vk Hiv). by apply Hin1.
Qed.

Lemma var_info_of_ok (declared : gmap string (gmap string var_metadata))
    (l : list (var_key * clock)) :
  ∀ acc,
    NoDup l.*1 →
    (∀ vk, vk ∈ l.*1 → is_Some (declared_var declared vk)) →
    ∃ info,
      var_info_of declared l acc = Ok info ∧
      ∀ vk, info !! vk
            = match lookup_clock vk l with
              | Some c => info_entry vk c <$> declared_var declared vk
              | None => acc !! vk
              end.
Proof.
  induction l as [|[[p v] c] l IH]; intros acc Hnd Hdecl.
  - exists acc. by split.
  - cbn in Hnd. apply NoDup_cons in Hnd as [Hk Hnd].
    destruct (Hdecl (p, v)) as [v_obj Hv]; [by left |].
    unfold declared_var in Hv. cbn in Hv.
    destruct (declared !! p) as [vars|] eqn:Hp; [| done].
    cbn [var_info_of]. rewrite Hp, Hv.
    destruct (IH (<[(p, v) := info_entry (p, v) c v_obj]> acc) Hnd)
      as (info & Hrun & Hinfo).
    { intros vk Hvk. apply Hdecl. by right. }
    exists info. split; [exact Hrun |]. intros vk. rewrite Hinfo. cbn.
    destruct (decide ((p, v) = vk)) as [<- | Hne].
    + apply lookup_clock_None in Hk. rewrite Hk, lookup_insert_eq.
      unfold declared_var. cbn. by rewrite Hp, Hv.
    + destruct (lookup_clock vk l); [done |]. by rewrite lookup_insert_ne.
Qed.

Lemma var_info_of_error (declared : gmap string (gmap string var_metadata))
    (l : list (var_key * clock)) :
  ∀ acc vk,
    vk ∈ l.*1 → declared_var declared vk = None →
    ∃ key, var_info_of declared l acc = Raise (KeyError (KeyStr key)).
Proof.
  induction l as [|[[p v] c] l IH]; intros acc vk Hin Hmiss;
    [by apply elem_of_nil in Hin |].
  cbn [var_info_of].
  destruct (declared !! p) as [vars|] eqn:Hp; [| eauto].
  destruct (vars !! v) as [v_obj|] eqn:Hv; [| eauto].
  cbn in Hin. apply elem_of_cons in Hin as [-> | Hin].
  - unfold declared_var in Hmiss. cbn in Hmiss. rewrite Hp in Hmiss.
    congruence.
  - by apply (IH _ vk).
Qed.

(** [_get_var_info] returns normally exactly when every output variable
    of the dataset and every index variable of the model is a declared
    variable of a process of the model; otherwise it raises a
    [KeyError]. *)
Theorem get_var_info_needs_declared_variables
    (output_vars : list (var_key * clock)) (index_vars : list var_key)
    (declared : gmap string (gmap string var_metadata)) :
  ((∀ vk, vk ∈ output_vars.*1 ∨ vk ∈ index_vars →
          is_Some (declared_var declared vk)) →
   ∃ info, _get_var_info output_vars index_vars declared = Ok info) ∧
  (∀ vk, vk ∈ output_vars.*1 ∨ vk ∈ index_vars →
         declared_var declared vk = None →
         ∃ key, _get_var_info output_vars index_vars declared
                = Raise (KeyError (KeyStr key))).
Proof.
  destruct (var_clocks_of_spec output_vars index_vars)
    as (Hnd & Hkeys & _ & _).
  unfold _get_var_info. split.
  - intros Hdecl.
    destruct (var_info_of_ok declared
                (var_clocks_of output_vars index_vars) ∅ Hnd)
      as (info & Hrun & _); [| eauto].
    intros vk Hvk. apply Hdecl. by apply Hkeys.
  - intros vk Hvk Hmiss.
    apply (var_info_of_error declared _ ∅ vk); [| done]. by apply Hkeys.
Qed.

(** The entries [_get_var_info] returns: an index variable of the model
    is recorded without clock, also when the dataset lists it as an
    output variable of a clock; any other output variable is recorded
    with the clock of the dataset; and every entry belongs to an output
    or index variable, is named after its process and variable joined by
    two underscores, reads the value of that very variable, and carries
    the declared variable. *)
Theorem get_var_info_entries
    (output_vars : list (var_key * clock)) (index_vars : list var_key)
    (declared : gmap string (gmap string var_metadata))
    (info : gmap var_key var_info_entry) :
  NoDup output_vars.*1 →
  _get_var_info output_vars index_vars declared = Ok info →
  (∀ vk, vk ∈ index_vars →
         ∃ vi, info !! vk = Some vi ∧ vi_clock vi = None) ∧
  (∀ vk c, (vk, c) ∈ output_vars → vk ∉ index_vars →
           ∃ vi, info !! vk = Some vi ∧ vi_clock vi = c) ∧
  (∀ vk vi, info !! vk = Some vi →
            (vk ∈ output_vars.*1 ∨ vk ∈ index_vars) ∧
            vi_name vi = vk.1 +:+ "__" +:+ vk.2 ∧
            vi_value_getter vi = vk ∧
            declared_var declared vk = Some (vi_obj vi)).
Proof.
  intros Hov Hrun.
  destruct (var_clocks_of_spec output_vars index_vars)
    as (Hnd & Hkeys & Hindex & Hout).
  assert (Hdecl : ∀ vk, vk ∈ (var_clocks_of output_vars index_vars).*1 →
                        is_Some (declared_var declared vk)).
  { intros vk Hvk. destruct (declared_var declared vk) eqn:Hd; [eauto |].
    destruct (var_info_of_error declared _ ∅ vk Hvk Hd) as [key Herr].
    unfold _get_var_info in Hrun. congruence. }
  destruct (var_info_of_ok declared _ ∅ Hnd Hdecl) as (info' & Hrun' & Hinfo).
  unfold _get_var_info in Hrun. rewrite Hrun' in Hrun. injection Hrun as ->.
  split_and!.
  - intros vk Hvk. rewrite Hinfo, (Hindex vk Hvk).
    destruct (Hdecl vk) as [v_obj ->]; [apply Hkeys; by right |].
    eexists. by split.
  - intros vk c Hvk Hiv. rewrite Hinfo, (Hout vk c Hov Hvk Hiv).
    destruct (Hdecl vk) as [v_obj ->].
    { apply Hkeys. left. by apply (list_elem_of_fmap_2 fst) in Hvk. }
    eexists. by split.
  - intros vk vi Hvi. rewrite Hinfo in Hvi.
    destruct (lookup_clock vk (var_clocks_of output_vars index_vars))
      as [c|] eqn:Hc; [| by rewrite lookup_empty in Hvi].
    assert (Hin : vk ∈ (var_clocks_of output_vars index_vars).*1).
    { destruct (decide (vk ∈ (var_clocks_of output_vars index_vars).*1));
        [done |].
      apply lookup_clock_None in n. congruence. }
    destruct (declared_var declared vk) as [v_obj|] eqn:Hd; [| done].
    cbn in Hvi. injection Hvi as <-. split_and!; try done.
    by apply Hkeys.
Qed.

(** *** [write_index_vars] *)

(** An index variable that can be written: it is described without
    clock, its value can be read, is not complex, has at least one
    dimension (it is assigned through the slice [[:]]) and a declared
    number of dimensions, and no array has its bare variable name. *)
Definition indexable (st : ZarrOutputStore) (vk : var_key) : Prop :=
  ∃ vi value dims,
    var_info st !! vk = Some vi ∧ vi_clock vi = None ∧
    model st !! vi_value_getter vi = Some value ∧
    dtype_kind (nd_dtype (np_asarray value)) ≠ "c" ∧
    nd_shape (np_asarray value) ≠ [] ∧
    zgroup st !! vk.2 = None ∧
    find_dim_labels (md_dims (vi_obj vi)) (ndim (np_asarray value))
    = Some dims.

(** The array [write_index_vars] leaves for an index variable. *)
Definition index_array (vi : var_info_entry) (value : npvalue)
    (dims : list string) : zarray :=
  with_data
    (with_attrs
       (blank_array (nd_shape (np_asarray value))
                    (nd_dtype (np_asarray value)))
       (dataset_attrs (vi_obj vi) dims ∅))
    (cells_of value).

Lemma write_index_var_step (st : ZarrOutputStore) (vk : var_key)
    (vi : var_info_entry) (value : npvalue) (dims : list string) :
  var_info st !! vk = Some vi → vi_clock vi = None →
  model st !! vi_value_getter vi = Some value →
  dtype_kind (nd_dtype (np_asarray value)) ≠ "c" →
  nd_shape (np_asarray value) ≠ [] →
  zgroup st !! vk.2 = None →
  find_dim_labels (md_dims (vi_obj vi)) (ndim (np_asarray value))
  = Some dims →
  write_index_vars [vk] st =
    (Ok tt,
     set_zgroup (<[vk.2 := index_array vi value dims]> (zgroup st))
                (set_consolidated false st)).
Proof.
  intros Hvi Hc Hval Hdt Hdim Hfree Hdims.
  assert (Hshape : storage_shape (vi_clock vi) (clock_sizes st) value
                   = Some (nd_shape (np_asarray value))).
  { by rewrite Hc. }
  pose proof (create_zarr_dataset_step st vk (Some vk.2) vi value _
                Hvi Hval Hdt Hshape Hfree) as Hstep.
  cbv zeta in Hstep. rewrite Hdims, Hc in Hstep. cbn [default] in Hstep.
  unfold write_index_vars. cbn [for_each]. unfold bind at 1.
  unfold bind at 1. rewrite Hstep.
  rewrite bind_get_var_info. cbn [var_info set_consolidated set_zgroup].
  rewrite Hvi. unfold bind at 1. unfold value_getter, lift.
  cbn [model set_consolidated set_zgroup]. rewrite Hval.
  unfold on_zgroup. cbn [zgroup set_consolidated set_zgroup].
  erewrite setitem_all_same_shape;
    [| apply lookup_insert_eq | done | done].
  cbn. unfold set_zgroup, set_consolidated. cbn.
  by rewrite insert_insert_eq.
Qed.

Lemma for_each_cons_single {A} (x : A) (l : list A) (body : A → M unit)
    (st : ZarrOutputStore) :
  for_each (x :: l) body st =
    match for_each [x] body st with
    | (Ok _, st1) => for_each l body st1
    | (Raise e, st1) => (Raise e, st1)
    end.
Proof.
  cbn [for_each]. unfold bind, ret.
  by destruct (body x st) as [[[]|e] st1].
Qed.

Lemma write_index_vars_cons (vk : var_key) (rest : list var_key)
    (st : ZarrOutputStore) :
  write_index_vars (vk :: rest) st =
    match write_index_vars [vk] st with
    | (Ok _, st1) => write_index_vars rest st1
    | (Raise e, st1) => (Raise e, st1)
    end.
Proof. unfold write_index_vars. apply for_each_cons_single. Qed.

(** [write_index_vars] stores each index variable under its bare variable
    name: when the index variables can be written (their values are not
    complex and have at least one dimension) and their variable names
    are distinct, the call returns normally, and for each of them
    the group then has an array of that name with the shape and dtype of
    the value, holding the elements of the value; arrays of other names
    are as they were. *)
Theorem write_index_vars_spec (index_vars : list var_key) :
  ∀ st,
    NoDup index_vars.*2 → Forall (indexable st) index_vars →
    ∃ st',
      write_index_vars index_vars st = (Ok tt, st') ∧
      (∀ name, name ∉ index_vars.*2 →
               zgroup st' !! name = zgroup st !! name) ∧
      ∀ vk vi value,
        vk ∈ index_vars → var_info st !! vk = Some vi →
        model st !! vi_value_getter vi = Some value →
        ∃ za, zgroup st' !! vk.2 = Some za ∧
              z_shape za = nd_shape (np_asarray value) ∧
              z_dtype za = nd_dtype (np_asarray value) ∧
              z_data za = cells_of value.
Proof.
  induction index_vars as [|x rest IH]; intros st Hnd Hall.
  - exists st. split_and!; [done | done |].
    intros vk vi value Hin. by apply elem_of_nil in Hin.
  - cbn in Hnd. apply NoDup_cons in Hnd as [Hfresh Hnd].
    apply Forall_cons in Hall as [Hx Hrest].
    destruct Hx
      as (vi & value & dims & Hvi & Hc & Hval & Hdt & Hdim & Hfree & Hdims).
    pose proof (write_index_var_step st x vi value dims
                  Hvi Hc Hval Hdt Hdim Hfree Hdims) as Hstep.
    set (st1 := set_zgroup (<[x.2 := index_array vi value dims]> (zgroup st))
                           (set_consolidated false st)) in *.
    destruct (IH st1 Hnd) as (st' & Hrun & Hframe & Hnew).
    { rewrite Forall_forall in Hrest. apply Forall_forall. intros vk Hin.
      destruct (Hrest vk Hin)
        as (vi' & value' & dims' & Hvi' & Hc' & Hval' & Hdt' & Hdim' & Hfree'
            & Hdims').
      exists vi', value', dims'. split_and!; try done.
      subst st1. cbn. rewrite lookup_insert_ne; [done |].
      intros Heq. apply Hfresh. rewrite Heq.
      by apply (list_elem_of_fmap_2 snd). }
    exists st'. split_and!.
    + by rewrite write_index_vars_cons, Hstep.
    + intros name Hname. cbn in Hname.
      apply not_elem_of_cons in Hname as [Hne Hname].
      rewrite (Hframe name Hname). subst st1. cbn.
      by rewrite lookup_insert_ne.
    + intros vk vi' value' Hin Hvi' Hval'.
      apply elem_of_cons in Hin as [-> | Hin].
      * rewrite Hvi in Hvi'. injection Hvi' as <-.
        rewrite Hval in Hval'. injection Hval' as <-.
        rewrite (Hframe _ Hfresh). subst st1. cbn.
        rewrite lookup_insert_eq. eexists. by split_and!.
      * by apply (Hnew vk vi' value').
Qed.

(** Index variables are stored under the variable name alone, so two
    index variables of the same variable name in different processes
    cannot both be written: after the first is stored (its value is not
    complex and has at least one dimension), the creation for the second
    fails with [ContainsArrayError], and the array of the first stays. *)
Theorem index_vars_of_one_name_collide (st : ZarrOutputStore)
    (vk1 vk2 : var_key) (vi1 vi2 : var_info_entry) (value1 value2 : npvalue)
    (dims : list string) :
  vk1.2 = vk2.2 →
  var_info st !! vk1 = Some vi1 → vi_clock vi1 = None →
  model st !! vi_value_getter vi1 = Some value1 →
  dtype_kind (nd_dtype (np_asarray value1)) ≠ "c" →
  nd_shape (np_asarray value1) ≠ [] →
  zgroup st !! vk1.2 = None →
  find_dim_labels (md_dims (vi_obj vi1)) (ndim (np_asarray value1))
  = Some dims →
  var_info st !! vk2 = Some vi2 → vi_clock vi2 = None →
  model st !! vi_value_getter vi2 = Some value2 →
  ∃ st',
    write_index_vars [vk1; vk2] st = (Raise (ContainsArrayError vk2.2), st') ∧
    zgroup st' = <[vk1.2 := index_array vi1 value1 dims]> (zgroup st).
Proof.
  intros Hname Hvi1 Hc1 Hval1 Hdt1 Hdim1 Hfree Hdims Hvi2 Hc2 Hval2.
  pose proof (write_index_var_step st vk1 vi1 value1 dims
                Hvi1 Hc1 Hval1 Hdt1 Hdim1 Hfree Hdims) as Hstep.
  set (st1 := set_zgroup
                (<[vk1.2 := index_array vi1 value1 dims]> (zgroup st))
                (set_consolidated false st)) in *.
  exists st1. split; [| done].
  rewrite write_index_vars_cons, Hstep.
  destruct (create_zarr_dataset_early_errors st1 vk2 (Some vk2.2))
    as (_ & _ & _ & Hexists).
  unfold write_index_vars. cbn [for_each]. unfold bind at 1.
  unfold bind at 1.
  rewrite (Hexists vi2 value2 (nd_shape (np_asarray value2))); try done.
  - by rewrite Hc2.
  - cbn. rewrite <- Hname, lookup_insert_eq. eauto.
Qed.

(** *** The whole of a call that goes through *)





(** *** Values the store cannot save *)

(** A complex value cannot be saved.  Its fill value is a tuple, which
    zarr refuses: [_create_zarr_dataset] raises a [ValueError] and leaves
    the store as it was, and so does the first write of a clock whose
    first variable holds a complex value. *)
Theorem complex_values_rejected (st : ZarrOutputStore) (vk : var_key)
    (vi : var_info_entry) (value : npvalue) (shape : list nat) :
  var_info st !! vk = Some vi →
  model st !! vi_value_getter vi = Some value →
  storage_shape (vi_clock vi) (clock_sizes st) value = Some shape →
  dtype_kind (nd_dtype (np_asarray value)) = "c" →
  ∃ msg,
    (∀ name_arg,
       zgroup st !! default (vi_name vi) name_arg = None →
       _create_zarr_dataset vk name_arg st = (Raise (ValueError msg), st)) ∧
    (∀ istep save_istep c vks,
       zgroup st !! vi_name vi = None →
       skipped istep save_istep c = false →
       clock_incs st !! c = Some 0 →
       write_clock_vars istep save_istep (c, vk :: vks) st
       = (Raise (ValueError msg), st)).
Proof.
  intros Hvi Hval Hshape Hdt. eexists. split.
  - intros name_arg Hfree.
    by apply (create_zarr_dataset_complex st vk name_arg vi value shape).
  - intros istep save_istep c vks Hfree Hskip Hk.
    destruct (skipped_false _ _ _ Hskip) as [Hlast Hsave].
    assert (Hguard : bool_decide (c = None) && bool_decide (istep ≠ (-1)%Z)
                     = false).
    { apply andb_false_iff. destruct c as [name|].
      - left. by apply bool_decide_eq_false.
      - right. apply bool_decide_eq_false. intros Hne. by apply Hne, Hlast. }
    unfold write_clock_vars. rewrite Hguard, Hsave. cbn [negb].
    unfold bind at 1. unfold get_clock_inc, lift. rewrite Hk.
    rewrite decide_True by done. unfold bind at 1. cbn [for_each].
    unfold bind at 1.
    by rewrite (create_zarr_dataset_complex st vk None vi value shape).
Qed.

(** A 0-d value without clock (a scalar, for one) cannot be saved.  The
    call for the last step creates its array, of shape [()], but the
    assignment through the slice [[:]] raises [IndexError]: the array
    keeps the fill value and the counter of the variables without clock
    stays at 0, so that another call for the last step tries to create
    the array again and raises [ContainsArrayError]. *)
Theorem zero_d_value_without_clock_not_written (st : ZarrOutputStore)
    (vk : var_key) (vi : var_info_entry) (value : npvalue)
    (save_istep : gmap string bool) :
  var_info st !! vk = Some vi → vi_clock vi = None →
  model st !! vi_value_getter vi = Some value →
  nd_shape (np_asarray value) = [] →
  dtype_kind (nd_dtype (np_asarray value)) ≠ "c" →
  zgroup st !! vi_name vi = None →
  is_Some (find_dim_labels (md_dims (vi_obj vi)) 0) →
  clock_incs st !! None = Some 0 →
  ∃ st',
    write_clock_vars (-1) save_istep (None, [vk]) st
    = (Raise IndexError, st') ∧
    zgroup st' = <[vi_name vi := created_array st vi value]> (zgroup st) ∧
    z_shape (created_array st vi value) = [] ∧
    z_data (created_array st vi value) = [CFill] ∧
    clock_incs st' = clock_incs st ∧
    write_clock_vars (-1) save_istep (None, [vk]) st'
    = (Raise (ContainsArrayError (vi_name vi)), st').
Proof.
  intros Hvi Hc Hval Hdim Hdt Hfree [dims Hdims] Hk.
  assert (Hshape : storage_shape (vi_clock vi) (clock_sizes st) value
                   = Some []).
  { rewrite Hc. cbn. by rewrite Hdim. }
  pose proof (create_zarr_dataset_step st vk None vi value []
                Hvi Hval Hdt Hshape Hfree) as Hstep.
  cbv zeta in Hstep. unfold ndim in Hstep. rewrite Hdim in Hstep.
  cbn [length] in Hstep. rewrite Hdims in Hstep. cbn [default] in Hstep.
  assert (Hza : with_attrs (blank_array [] (nd_dtype (np_asarray value)))
                  (dataset_attrs (vi_obj vi)
                     (clocked_labels (vi_clock vi) dims) ∅)
                = created_array st vi value).
  { unfold created_array, ndim. rewrite Hshape, Hdim. cbn [length].
    by rewrite Hdims. }
  rewrite Hza in Hstep.
  set (st1 := set_consolidated false
                (set_zgroup
                   (<[vi_name vi := created_array st vi value]> (zgroup st))
                   st)) in *.
  assert (Hsh : z_shape (created_array st vi value) = []).
  { by rewrite <- Hza. }
  exists st1. split_and!.
  - unfold write_clock_vars. cbn [bool_decide andb data_vars_get negb].
    rewrite bool_decide_eq_true_2 by done.
    rewrite bool_decide_eq_false_2 by (intros Hne; by apply Hne).
    cbn [andb]. unfold bind at 1. unfold get_clock_inc, lift. rewrite Hk.
    rewrite decide_True by done. unfold bind at 1. cbn [for_each].
    unfold bind at 1. rewrite Hstep. unfold ret. unfold bind at 1.
    unfold bind at 1. unfold write_var. rewrite bind_get_var_info.
    replace (var_info st1) with (var_info st) by done. rewrite Hvi.
    unfold bind at 1. unfold value_getter, lift.
    replace (model st1) with (model st) by done. rewrite Hval.
    unfold on_zgroup, setitem_all.
    replace (zgroup st1)
      with (<[vi_name vi := created_array st vi value]> (zgroup st)) by done.
    rewrite lookup_insert_eq. by rewrite Hsh.
  - done.
  - done.
  - by rewrite <- Hza.
  - done.
  - unfold write_clock_vars. cbn [bool_decide andb data_vars_get negb].
    rewrite bool_decide_eq_true_2 by done.
    rewrite bool_decide_eq_false_2 by (intros Hne; by apply Hne).
    cbn [andb]. unfold bind at 1. unfold get_clock_inc, lift.
    replace (clock_incs st1) with (clock_incs st) by done. rewrite Hk.
    rewrite decide_True by done. unfold bind at 1. cbn [for_each].
    unfold bind at 1.
    destruct (create_zarr_dataset_early_errors st1 vk None)
      as (_ & _ & _ & Hexists).
    rewrite (Hexists vi value []); [done | done | done | done |].
    cbn. rewrite lookup_insert_eq. eauto.
Qed.

(** *** Closed instances *)

(** The store of the examples with three more variables: [bad], declared
    scalar but holding the series, and the index variables [x] of the
    processes [grid] and [other]. *)
Definition bad_info : var_info_entry :=
  {| vi_clock := None; vi_name := "p__bad";
     vi_obj := {| md_dims := [[]]; md_description := ""; md_attrs := ∅ |};
     vi_value_getter := ("p", "x") |}.

Definition grid_x_info : var_info_entry :=
  {| vi_clock := None; vi_name := "grid__x";
     vi_obj := {| md_dims := [["x"]]; md_description := "";
                  md_attrs := ∅ |};
     vi_value_getter := ("p", "x") |}.

Definition other_x_info : var_info_entry :=
  {| vi_clock := None; vi_name := "other__x";
     vi_obj := {| md_dims := [["x"]]; md_description := "";
                  md_attrs := ∅ |};
     vi_value_getter := ("p", "x") |}.

Definition more_store : ZarrOutputStore :=
  {| model := model demo_store;
     zgroup := ∅;
     in_memory := true;
     consolidated := false;
     output_vars := output_vars demo_store;
     output_save_steps := output_save_steps demo_store;
     var_info := <[("p", "bad") := bad_info]>
                 (<[("grid", "x") := grid_x_info]>
                 (<[("other", "x") := other_x_info]>
                    (var_info demo_store)));
     clock_sizes := clock_sizes demo_store;
     clock_incs := clock_incs demo_store |}.

(** The store after the first step. *)
Definition after_first_step : ZarrOutputStore :=
  (write_output_vars 0 demo_store).2.

Lemma create_zarr_dataset_early_errors_witness :
  _create_zarr_dataset ("p", "nothing") None demo_store
  = (Raise (KeyError (KeyPair "p" "nothing")), demo_store) ∧
  _create_zarr_dataset ("p", "x") None after_first_step
  = (Raise (ContainsArrayError "p__x"), after_first_step).
Proof.
  split.
  - destruct (create_zarr_dataset_early_errors demo_store ("p", "nothing")
                None) as (Hnone & _).
    by apply Hnone.
  - destruct (create_zarr_dataset_early_errors after_first_step ("p", "x")
                None) as (_ & _ & _ & Hexists).
    apply (Hexists x_info series [3; 2]); try reflexivity.
    vm_compute. eauto.
Defined.

Lemma dims_error_leaves_blank_array_witness :
  ∃ msg st',
    _create_zarr_dataset ("p", "bad") None more_store
    = (Raise (ValueError msg), st') ∧
    zgroup st' = <["p__bad" := blank_array [2] (DFloat 64)]> ∅ ∧
    _create_zarr_dataset ("p", "bad") None st'
    = (Raise (ContainsArrayError "p__bad"), st').
Proof.
  destruct (dims_error_leaves_blank_array more_store ("p", "bad") None
              bad_info series [2])
    as (msg & st' & Hrun & Hz & _ & Hagain); try reflexivity.
  - done.
  - intros d Hd. apply list_elem_of_singleton in Hd as ->. cbn. lia.
  - exists msg, st'. by split_and!.
Defined.

Lemma writes_keep_existing_arrays_witness :
  ∃ za',
    zgroup (write_output_vars (-1) after_first_step).2 !! "p__x" = Some za' ∧
    z_shape za' = [3; 2] ∧ z_dtype za' = DFloat 64.
Proof.
  destruct (zgroup after_first_step !! "p__x") as [za|] eqn:Hza;
    [| vm_compute in Hza; discriminate].
  destruct (writes_keep_existing_arrays after_first_step (-1) [] "p__x" za
              Hza) as [(za' & Hza' & Hsh & Hdt & _) _].
  exists za'. split; [done |].
  vm_compute in Hza. injection Hza as <-. by split.
Defined.

Lemma write_output_vars_reads_its_inputs_witness :
  model (write_output_vars 0 demo_store).2 = model demo_store ∧
  ∃ k', clock_incs (write_output_vars 0 demo_store).2 !! Some "time"
        = Some k' ∧ 0 ≤ k'.
Proof.
  destruct (write_output_vars_reads_its_inputs demo_store 0)
    as (Hm & _ & _ & _ & _ & Hc).
  split; [done |]. by apply Hc.
Defined.

Lemma step_index_like_python_witness :
  write_output_vars 3 demo_store = (Raise IndexError, demo_store) ∧
  write_output_vars (-2) demo_store = write_output_vars 1 demo_store.
Proof.
  destruct (step_index_like_python demo_store 3) as [Hout _].
  destruct (step_index_like_python demo_store (-2)) as [_ Hneg].
  split.
  - apply Hout. cbn. lia.
  - apply Hneg; [cbn; lia | done].
Defined.

Lemma no_save_step_is_noop_witness :
  write_output_vars 1 demo_store = (Ok tt, demo_store).
Proof.
  apply (no_save_step_is_noop demo_store 1 {[ "time" := false ]}).
  - reflexivity.
  - by left.
  - intros name vks Hin.
    apply elem_of_cons in Hin as [Heq | Hin]; [by injection Heq as -> _ |].
    apply elem_of_cons in Hin as [Heq | Hin]; [done |].
    by apply elem_of_nil in Hin.
Defined.


Lemma created_array_attributes_witness :
  ∃ st' za,
    _create_zarr_dataset ("p", "x") None demo_store = (Ok tt, st') ∧
    zgroup st' !! "p__x" = Some za ∧
    z_attrs za !! "description" = Some (AttrStr "elevation") ∧
    z_attrs za !! "units" = None.
Proof.
  destruct (created_array_attributes demo_store ("p", "x") None x_info
              series [3; 2] ["x"])
    as (st' & za & Hrun & Hza & _ & _ & Hdesc & Hnone); try reflexivity;
    [done |].
  exists st', za. split_and!; [done | done | |].
  - by rewrite Hdesc.
  - by apply Hnone.
Defined.

(** A dataset that lists the index variable [x] of [p] as an output
    variable of the clock [time]. *)
Definition demo_outputs : list (var_key * clock) :=
  [(("p", "x"), Some "time"); (("p", "s"), None)].

Definition demo_declared : gmap string (gmap string var_metadata) :=
  {[ "p" := <["x" := vi_obj x_info]> (<["s" := vi_obj s_info]> ∅) ]}.

Lemma get_var_info_needs_declared_variables_witness :
  (∃ info, _get_var_info demo_outputs [("p", "x")] demo_declared = Ok info) ∧
  ∃ key, _get_var_info demo_outputs [("q", "x")] demo_declared
         = Raise (KeyError (KeyStr key)).
Proof.
  split.
  - destruct (get_var_info_needs_declared_variables demo_outputs
                [("p", "x")] demo_declared) as [Hok _].
    apply Hok. intros vk [Hin | Hin].
    + apply elem_of_cons in Hin as [-> | Hin]; [vm_compute; eauto |].
      apply elem_of_cons in Hin as [-> | Hin]; [vm_compute; eauto |].
      by apply elem_of_nil in Hin.
    + apply list_elem_of_singleton in Hin as ->. vm_compute. eauto.
  - destruct (get_var_info_needs_declared_variables demo_outputs
                [("q", "x")] demo_declared) as [_ Herr].
    apply (Herr ("q", "x")); [right; by left | reflexivity].
Defined.

Lemma get_var_info_entries_witness :
  ∃ info vi vj,
    _get_var_info demo_outputs [("p", "x")] demo_declared = Ok info ∧
    info !! ("p", "x") = Some vi ∧ vi_clock vi = None ∧
    info !! ("p", "s") = Some vj ∧ vi_name vj = "p__s".
Proof.
  destruct (_get_var_info demo_outputs [("p", "x")] demo_declared)
    as [info|e] eqn:Hrun; [| vm_compute in Hrun; discriminate].
  destruct (get_var_info_entries demo_outputs [("p", "x")] demo_declared
              info) as (Hindex & Hout & Hall).
  { apply (bool_decide_unpack _). vm_compute. exact I. }
  { done. }
  destruct (Hindex ("p", "x")) as (vi & Hvi & Hc); [by left |].
  destruct (Hout ("p", "s") None) as (vj & Hvj & _).
  { right. by left. }
  { intros Hin. apply list_elem_of_singleton in Hin. discriminate. }
  destruct (Hall ("p", "s") vj Hvj) as (_ & Hname & _).
  exists info, vi, vj. by split_and!.
Defined.

Lemma write_index_vars_spec_witness :
  ∃ st' za,
    write_index_vars [("grid", "x")] more_store = (Ok tt, st') ∧
    zgroup st' !! "x" = Some za ∧
    z_shape za = [2] ∧ z_data za = [CVal 1; CVal 2].
Proof.
  destruct (write_index_vars_spec [("grid", "x")] more_store)
    as (st' & Hrun & _ & Hnew).
  - apply (bool_decide_unpack _). vm_compute. exact I.
  - constructor; [| constructor].
    exists grid_x_info, series, ["x"]. by split_and!.
  - destruct (Hnew ("grid", "x") grid_x_info series)
      as (za & Hza & Hsh & _ & Hdata); [by left | reflexivity | reflexivity |].
    exists st', za. by split_and!.
Defined.

Lemma index_vars_of_one_name_collide_witness :
  ∃ st',
    write_index_vars [("grid", "x"); ("other", "x")] more_store
    = (Raise (ContainsArrayError "x"), st') ∧
    zgroup st' = <["x" := index_array grid_x_info series ["x"]]> ∅.
Proof.
  apply (index_vars_of_one_name_collide more_store ("grid", "x")
           ("other", "x") grid_x_info other_x_info series series ["x"]);
    try reflexivity; done.
Defined.






Lemma complex_values_rejected_witness :
  ∃ msg,
    _create_zarr_dataset ("p", "x") None complex_store
    = (Raise (ValueError msg), complex_store) ∧
    write_clock_vars 0 {[ "time" := true ]} (Some "time", [("p", "x")])
                     complex_store
    = (Raise (ValueError msg), complex_store).
Proof.
  destruct (complex_values_rejected complex_store ("p", "x") x_info
              (NpScalar (DComplex 128) 1) [3])
    as (msg & Hcreate & Hturn); try reflexivity.
  exists msg. split.
  - by apply (Hcreate None).
  - by apply Hturn.
Defined.

Lemma zero_d_value_without_clock_not_written_witness :
  ∃ st',
    write_clock_vars (-1) ∅ (None, [("p", "s")]) demo_store
    = (Raise IndexError, st') ∧
    clock_incs st' = clock_incs demo_store ∧
    write_clock_vars (-1) ∅ (None, [("p", "s")]) st'
    = (Raise (ContainsArrayError "p__s"), st').
Proof.
  destruct (zero_d_value_without_clock_not_written demo_store ("p", "s")
              s_info (NpScalar (DFloat 64) 3) ∅)
    as (st' & Hrun & _ & _ & _ & Hc & Hagain); try reflexivity.
  - done.
  - vm_compute. eauto.
  - exists st'. by split_and!.
Defined.

End StoresMore.

(** * xsimlab/formatting.py *)

Module Formatting.

(** Python's [len] of a string, as an int.  A string is a sequence of
    one-byte characters here, so [len] agrees with Python's on ASCII
    text. *)
Definition len (s : string) : Z := Z.of_nat (String.length s).

Fixpoint take_str (n : nat) (s : string) : string :=
  match n, s with
  | S n', String c s' => String c (take_str n' s')
  | _, _ => ""
  end.

(** The slice [s[:stop]]; a negative [stop] counts from the end. *)
Definition slice_to (s : string) (stop : Z) : string :=
  take_str (Z.to_nat (if decide (stop < 0)%Z then len s + stop else stop)) s.

Fixpoint repeat_str (n : nat) (c : string) : string :=
  match n with
  | 0 => ""
  | S n' => c +:+ repeat_str n' c
  end.

(** [c * n] for a string [c] and an int [n] *)
Definition str_mul (c : string) (n : Z) : string := repeat_str (Z.to_nat n) c.

(** [maybe_truncate] *)
Definition maybe_truncate (s : string) (maxlen : Z) : string :=
  if decide (len s > maxlen)%Z then slice_to s (maxlen - 3) +:+ "..."
  else s.

(** [pretty_print] *)
Definition pretty_print (s : string) (numchars : Z) : string :=
  let s := maybe_truncate s numchars in
  s +:+ str_mul " " (Z.max (numchars - len s) 0).

(** [_calculate_col_width] *)
Definition _calculate_col_width (col_items : list string) : Z :=
  let max_name_length :=
    match col_items with
    | [] => 0%Z
    | s :: rest => foldl Z.max (len s) (len <$> rest)
    end in
  (Z.max max_name_length 7 + 6)%Z.

(** [VarIntent] and the part of [VarType] that [_summarize_var] tells
    apart; the metadata of a variable goes with its type. *)
Inductive VarIntent :=
| IN
| OUT
| INOUT.

Inductive var_metadata :=
| GROUP (group : string)
| FOREIGN (other_process_cls_name var_name : string)
| OTHER (dims : list (list string)) (description : string).

Record variable := mk_variable {
  name : string;
  intent : VarIntent;
  metadata : var_metadata
}.

(** The keys a process object holds for its variables:
    [__xsimlab_state_keys__] and [__xsimlab_od_keys__]. *)
Record process := mk_process {
  __xsimlab_state_keys__ : gmap string (string * string);
  __xsimlab_od_keys__ : gmap string (string * string)
}.

(** A line, or the [UnboundLocalError] Python raises when a local
    variable is read before it is assigned. *)
Inductive outcome :=
| Line (s : string)
| UnboundLocalError (local : string).

(** [_summarize_var]; [link_symbol] is assigned for the intents [IN] and
    [OUT] only. *)
Definition _summarize_var (var : variable) (proc : process) (col_width : Z)
    : outcome :=
  let max_line_length := 70%Z in
  let var_name := name var in
  let link_symbol :=
    match intent var with
    | IN => Some "<---"
    | OUT => Some "--->"
    | INOUT => None
    end in
  let var_intent_str :=
    match intent var with
    | IN => "   [in]"
    | OUT => "  [out]"
    | INOUT => "[inout]"
    end in
  let var_info :=
    match metadata var with
    | GROUP group =>
        match link_symbol with
        | None => None
        | Some l => Some (l +:+ " group " +:+ Stores.repr_label group)
        end
    | FOREIGN cls_name v_name =>
        let key :=
          match __xsimlab_state_keys__ proc !! var_name with
          | Some key => key
          | None =>
              match __xsimlab_od_keys__ proc !! var_name with
              | Some key => key
              | None => (cls_name, v_name)
              end
          end in
        match link_symbol with
        | None => None
        | Some l => Some (l +:+ " " +:+ Stores.join "." [key.1; key.2])
        end
    | OTHER dims description =>
        let var_dims :=
          Stores.join " or "
            ((λ d, Stores.repr_tuple (Stores.repr_label <$> d)) <$> dims) in
        if decide (var_dims ≠ "()")
        then Some (Stores.join " " [var_dims; description])
        else Some description
    end in
  match var_info with
  | None => UnboundLocalError "link_symbol"
  | Some var_info =>
      let left_col := pretty_print ("    " +:+ name var) col_width in
      let right_col :=
        if decide (var_info ≠ "")
        then var_intent_str
             +:+ maybe_truncate (" " +:+ var_info)
                                (max_line_length - col_width - 7)
        else var_intent_str in
      Line (left_col +:+ right_col)
  end.

End Formatting.

(** * Properties of the formatting functions *)

Module FormattingFacts.

Import Formatting.

Lemma len_app (a b : string) : len (a +:+ b) = (len a + len b)%Z.
Proof.
  unfold len. induction a as [|c a IH]; [done |].
  change (String c a +:+ b) with (String c (a +:+ b)).
  cbn [String.length]. lia.
Qed.

Lemma len_nonneg (s : string) : (0 ≤ len s)%Z.
Proof. unfold len. lia. Qed.

Lemma len_take_str (n : nat) (s : string) :
  len (take_str n s) = Z.min (Z.of_nat n) (len s).
Proof.
  unfold len. revert s. induction n as [|n IH]; intros s.
  - destruct s; cbn; lia.
  - destruct s as [|c s]; [cbn; lia |].
    cbn [take_str String.length]. specialize (IH s). lia.
Qed.

Lemma take_str_all (n : nat) (s : string) :
  (len s ≤ Z.of_nat n)%Z → take_str n s = s.
Proof.
  unfold len. revert s. induction n as [|n IH]; intros s Hle.
  - destruct s; [done | cbn in Hle; lia].
  - destruct s as [|c s]; [done |]. cbn [take_str]. f_equal. apply IH.
    cbn [String.length] in Hle. lia.
Qed.

Lemma len_str_mul (n : Z) : len (str_mul " " n) = Z.max n 0.
Proof.
  unfold str_mul.
  assert (H : ∀ k, len (repeat_str k " ") = Z.of_nat k).
  { induction k as [|k IH]; [done |].
    cbn [repeat_str]. rewrite len_app, IH. unfold len. cbn. lia. }
  rewrite H. lia.
Qed.

Lemma len_slice_to (s : string) (stop : Z) :
  len (slice_to s stop)
  = if decide (stop < 0)%Z then Z.max (len s + stop) 0
    else Z.min stop (len s).
Proof.
  unfold slice_to. rewrite len_take_str.
  pose proof (len_nonneg s). case_decide; lia.
Qed.

(** [maybe_truncate] keeps a string that fits.  With room for at least
    the three dots, a string that is too long is cut to exactly [maxlen]
    characters: the first [maxlen - 3] characters of the string followed
    by three dots. *)
Theorem maybe_truncate_fits (s : string) (maxlen : Z) :
  ((len s ≤ maxlen)%Z → maybe_truncate s maxlen = s) ∧
  ((3 ≤ maxlen < len s)%Z →
   maybe_truncate s maxlen = take_str (Z.to_nat (maxlen - 3)) s +:+ "..." ∧
   len (maybe_truncate s maxlen) = maxlen).
Proof.
  unfold maybe_truncate. split.
  - intros Hle. by rewrite decide_False by lia.
  - intros Hlt. rewrite decide_True by lia.
    assert (Hslice : slice_to s (maxlen - 3)
                     = take_str (Z.to_nat (maxlen - 3)) s).
    { unfold slice_to. by rewrite decide_False by lia. }
    rewrite Hslice. split; [done |].
    rewrite len_app, len_take_str. change (len "...") with 3%Z. lia.
Qed.

(** Below three characters there is no room for the dots: for
    [maxlen < 3] a string longer than [maxlen] is cut by [3 - maxlen]
    characters at its end and then gets the three dots, so the result is
    as long as the string when that is at least [3 - maxlen], and in any
    case longer than [maxlen]. *)
Theorem maybe_truncate_below_three (s : string) (maxlen : Z) :
  (maxlen < 3)%Z → (maxlen < len s)%Z →
  len (maybe_truncate s maxlen) = (Z.max (len s + maxlen - 3) 0 + 3)%Z ∧
  (maxlen < len (maybe_truncate s maxlen))%Z.
Proof.
  intros Hsmall Hlong. unfold maybe_truncate. rewrite decide_True by lia.
  rewrite len_app, len_slice_to. rewrite decide_True by lia.
  change (len "...") with 3%Z. pose proof (len_nonneg s). lia.
Qed.

(** [pretty_print] returns a string of exactly [numchars] characters
    when [numchars] is at least three; a string that fits is kept and
    padded with spaces at its end. *)
Theorem pretty_print_length (s : string) (numchars : Z) :
  (3 ≤ numchars)%Z →
  len (pretty_print s numchars) = numchars ∧
  ((len s ≤ numchars)%Z →
   pretty_print s numchars = s +:+ str_mul " " (numchars - len s)).
Proof.
  intros Hn. unfold pretty_print.
  destruct (maybe_truncate_fits s numchars) as [Hfit Hcut]. split.
  - rewrite len_app, len_str_mul.
    destruct (decide (len s ≤ numchars)%Z) as [Hle | Hgt].
    + rewrite (Hfit Hle). lia.
    + destruct Hcut as [_ Hlen]; [lia |]. rewrite Hlen. lia.
  - intros Hle. rewrite (Hfit Hle). f_equal. f_equal. lia.
Qed.

Lemma foldl_max_bounds (l : list Z) (a : Z) :
  (a ≤ foldl Z.max a l)%Z ∧ ∀ x, x ∈ l → (x ≤ foldl Z.max a l)%Z.
Proof.
  revert a. induction l as [|y l IH]; intros a; cbn [foldl].
  - split; [lia |]. intros x Hx. by apply elem_of_nil in Hx.
  - destruct (IH (Z.max a y)) as [Ha Hl]. split; [lia |].
    intros x Hx. apply elem_of_cons in Hx as [-> | Hx]; [lia | by apply Hl].
Qed.

(** The column width leaves room: it is at least 13, and at least the
    length of every item plus 6. *)
Theorem calculate_col_width_bounds (col_items : list string) :
  (13 ≤ _calculate_col_width col_items)%Z ∧
  ∀ s, s ∈ col_items → (len s + 6 ≤ _calculate_col_width col_items)%Z.
Proof.
  unfold _calculate_col_width. split; [lia |].
  intros s Hs. destruct col_items as [|s0 rest];
    [by apply elem_of_nil in Hs |].
  destruct (foldl_max_bounds (len <$> rest) (len s0)) as [H0 Hrest].
  apply elem_of_cons in Hs as [-> | Hs]; [lia |].
  specialize (Hrest (len s) (list_elem_of_fmap_2 len rest s Hs)). lia.
Qed.

(** [_summarize_var] fails on a group or foreign variable of intent
    inout: the link symbol is assigned for the intents in and out only,
    so reading it raises [UnboundLocalError].  For every other variable
    it returns a line. *)
Theorem summarize_var_inout_link (var : variable) (proc : process)
    (col_width : Z) :
  _summarize_var var proc col_width = UnboundLocalError "link_symbol"
  ↔ intent var = INOUT ∧
    ∃ a, metadata var = GROUP a ∨ ∃ b, metadata var = FOREIGN a b.
Proof.
  unfold _summarize_var. split.
  - destruct (intent var), (metadata var) as [g | c v | dims d];
      try done; try (by repeat case_decide); intros _.
    + split; [done |]. exists g. by left.
    + split; [done |]. exists c. right. by exists v.
  - intros [Hi (a & [Hg | [b Hf]])]; rewrite Hi.
    + by rewrite Hg.
    + by rewrite Hf.
Qed.

(** For a column width from 3 to 60 the line [_summarize_var] returns
    starts with the name column of exactly [col_width] characters and the
    seven characters of the intent, and is at most 70 characters long. *)
Theorem summarize_var_line_length (var : variable) (proc : process)
    (col_width : Z) (line : string) :
  (3 ≤ col_width ≤ 60)%Z →
  _summarize_var var proc col_width = Line line →
  (col_width + 7 ≤ len line ≤ 70)%Z ∧
  ∃ rest,
    line = pretty_print ("    " +:+ name var) col_width +:+ rest ∧
    len (pretty_print ("    " +:+ name var) col_width) = col_width.
Proof.
  intros Hw Hrun. unfold _summarize_var in Hrun.
  set (intent_str := match intent var with
                     | IN => "   [in]"
                     | OUT => "  [out]"
                     | INOUT => "[inout]"
                     end) in *.
  assert (Hintent : len intent_str = 7%Z).
  { subst intent_str. by destruct (intent var). }
  destruct (pretty_print_length ("    " +:+ name var) col_width) as [Hleft _];
    [lia |].
  assert (Htrunc : ∀ s, (len (maybe_truncate s (70 - col_width - 7))
                         ≤ 63 - col_width)%Z).
  { intros s. destruct (maybe_truncate_fits s (70 - col_width - 7))
      as [Hfit Hcut].
    destruct (decide (len s ≤ 70 - col_width - 7)%Z) as [Hle | Hgt].
    - rewrite (Hfit Hle). lia.
    - destruct Hcut as [_ Hlen]; [lia |]. lia. }
  match type of Hrun with
  | match ?info with _ => _ end = _ => destruct info as [var_info|]
  end; [| done].
  injection Hrun as <-. split.
  - rewrite len_app, Hleft. case_decide.
    + rewrite len_app, Hintent.
      pose proof (Htrunc (" " +:+ var_info)).
      pose proof (len_nonneg (maybe_truncate (" " +:+ var_info)
                                (70 - col_width - 7))). lia.
    + rewrite Hintent. lia.
  - eexists. split; [reflexivity | done].
Qed.

(** Closed instances. *)
Lemma maybe_truncate_fits_witness :
  maybe_truncate "topography" 20 = "topography" ∧
  maybe_truncate "topography" 7 = "topo...".
Proof.
  destruct (maybe_truncate_fits "topography" 20) as [Hfit _].
  destruct (maybe_truncate_fits "topography" 7) as [_ Hcut].
  split.
  - apply Hfit. vm_compute. discriminate.
  - destruct Hcut as [Heq _]; [vm_compute; split; [discriminate | done] |].
    by rewrite Heq.
Defined.

Lemma maybe_truncate_below_three_witness :
  (2 < len (maybe_truncate "topography" 2))%Z.
Proof.
  apply (maybe_truncate_below_three "topography" 2); by vm_compute.
Defined.

Lemma pretty_print_length_witness :
  len (pretty_print "    elevation" 20) = 20%Z.
Proof.
  apply (pretty_print_length "    elevation" 20). by vm_compute.
Defined.

Lemma calculate_col_width_bounds_witness :
  (len "a_long_variable_name" + 6
   ≤ _calculate_col_width ["x"; "a_long_variable_name"])%Z.
Proof.
  apply (calculate_col_width_bounds ["x"; "a_long_variable_name"]).
  right. by left.
Defined.

Definition no_keys : process :=
  {| __xsimlab_state_keys__ := ∅; __xsimlab_od_keys__ := ∅ |}.

Lemma summarize_var_inout_link_witness :
  _summarize_var {| name := "h"; intent := INOUT;
                    metadata := FOREIGN "Grid" "h" |} no_keys 13
  = UnboundLocalError "link_symbol".
Proof.
  apply summarize_var_inout_link. split; [done |].
  exists "Grid". right. by exists "h".
Defined.

Example summarize_var_example :
  _summarize_var {| name := "h"; intent := IN;
                    metadata := FOREIGN "Grid" "h" |} no_keys 13
  = Line "    h           [in] <--- Grid.h".
Proof. reflexivity. Qed.

Lemma summarize_var_line_length_witness :
  (20 ≤ len "    h           [in] <--- Grid.h" ≤ 70)%Z.
Proof.
  destruct (summarize_var_line_length
              {| name := "h"; intent := IN; metadata := FOREIGN "Grid" "h" |}
              no_keys 13 "    h           [in] <--- Grid.h") as [Hlen _].
  - lia.
  - reflexivity.
  - exact Hlen.
Defined.

End FormattingFacts.
